(** * ShadowClone AI portfolio backend: the /ask handler of server.py

    A shallow embedding of [src/server.py]: the Python values the handler
    touches, the upstream assistant client and the analytics sink as
    interfaces over an abstract world, the handler [ask] as a program in a
    small state / exception / trace monad, and the admission gate in front
    of it. *)

From Stdlib Require Import ZArith NArith List String Ascii Bool Lia.
From Stdlib Require Import Floats.SpecFloat.
Import ListNotations.

Set Warnings "-register-all".
Local Open Scope Z_scope.

(* ================================================================= *)
(** ** Python values *)

Module Py.

(** A Python [str] is a sequence of Unicode code points. *)
Definition str := list N.

(** ASCII literals of the source. *)
Definition lit (s : string) : str :=
  List.map N_of_ascii (list_ascii_of_string s).
Arguments lit : simpl never.

Fixpoint str_eqb (a b : str) : bool :=
  match a, b with
  | [], [] => true
  | x :: a', y :: b' => N.eqb x y && str_eqb a' b'
  | _, _ => false
  end.

(** [s in l] for a list of strings. *)
Definition str_in (s : str) (l : list str) : bool := existsb (str_eqb s) l.

(** [str.isspace] on one code point: the characters CPython's
    [_PyUnicode_IsWhitespace] accepts. *)
Definition is_space (c : N) : bool :=
  ((9 <=? c) && (c <=? 13) || (28 <=? c) && (c <=? 32)
   || (c =? 133) || (c =? 160) || (c =? 5760)
   || (8192 <=? c) && (c <=? 8202)
   || (c =? 8232) || (c =? 8233) || (c =? 8239) || (c =? 8287)
   || (c =? 12288))%N.

Fixpoint lstrip (s : str) : str :=
  match s with
  | [] => []
  | c :: s' => if is_space c then lstrip s' else s
  end.

Definition rstrip (s : str) : str := rev (lstrip (rev s)).

(** [s.strip()] with no argument. *)
Definition strip (s : str) : str := rstrip (lstrip s).

(** What [json.loads] can produce, and what the handler builds. A [dict]
    is kept as its items in insertion order; keys are pairwise distinct. *)
Inductive value : Type :=
| PNone
| PBool (b : bool)
| PInt (z : Z)
| PFloat (f : spec_float)
| PStr (s : str)
| PList (l : list value)
| PDict (items : list (str * value)).

(** [bool(v)], the test behind [not v]. *)
Definition truthy (v : value) : bool :=
  match v with
  | PNone => false
  | PBool b => b
  | PInt z => negb (z =? 0)
  | PFloat (S754_zero _) => false
  | PFloat _ => true
  | PStr [] => false
  | PStr _ => true
  | PList [] => false
  | PList _ => true
  | PDict [] => false
  | PDict _ => true
  end.

Definition type_name (v : value) : str :=
  match v with
  | PNone => lit "NoneType"
  | PBool _ => lit "bool"
  | PInt _ => lit "int"
  | PFloat _ => lit "float"
  | PStr _ => lit "str"
  | PList _ => lit "list"
  | PDict _ => lit "dict"
  end.

(** Instances of subclasses of [Exception]. [LibraryError] stands for
    whatever the OpenAI or PostHog client raises. *)
Inductive exn : Type :=
| JSONDecodeError
| UnicodeDecodeError
| AttributeError (type_ attr : str)
| IndexError
| ValueError (message : str)
| LibraryError (detail : str).

(** [json.dumps(v, allow_nan=False)] goes through: no NaN and no infinity
    anywhere in [v]. *)
Fixpoint json_compliant (v : value) : bool :=
  match v with
  | PFloat S754_nan => false
  | PFloat (S754_infinity _) => false
  | PList l => forallb json_compliant l
  | PDict items => forallb (fun kv => json_compliant (snd kv)) items
  | _ => true
  end.

Fixpoint lookup (k : str) (items : list (str * value)) : option value :=
  match items with
  | [] => None
  | (k', v) :: rest => if str_eqb k k' then Some v else lookup k rest
  end.

(** [d.get(k, default)]: only a dict has the method. *)
Definition get (d : value) (k : str) (default : value) : exn + value :=
  match d with
  | PDict items =>
      inr (match lookup k items with Some v => v | None => default end)
  | _ => inl (AttributeError (type_name d) (lit "get"))
  end.

(** [v.strip()]: only a str has the method among JSON values. *)
Definition strip_method (v : value) : exn + str :=
  match v with
  | PStr s => inr (strip s)
  | _ => inl (AttributeError (type_name v) (lit "strip"))
  end.

End Py.
Import Py.

(* ================================================================= *)
(** ** Objects of the upstream assistant service and of the HTTP layer *)

(** [thread.id] *)
Record Thread : Type := mkThread { Thread_id : str }.

(** [run.id], [run.status] *)
Record Run : Type := mkRun { Run_id : str; Run_status : str }.

(** One element of [message.content]; only a text block has [.text]. *)
Inductive ContentBlock : Type :=
| TextContentBlock (text_value : str)
| ImageFileContentBlock (file_id : str)
| ImageURLContentBlock (url : str).

(** One element of [messages.data]. *)
Record Message : Type :=
  mkMessage { Message_role : str; Message_content : list ContentBlock }.

(** The bytes of a request body, as [request.json()] finds them: not text
    in the encoding they announce, text that is not JSON, or a JSON
    value. *)
Inductive request_content : Type :=
| NotText
| NotJSON
| Json (v : value).

(** The incoming request: its body, and [request.client.host] when the
    request has a client address ([request.client] is [None] otherwise). *)
Record Request : Type :=
  mkRequest { request_body : request_content; client_host : option str }.

(** The value [request.json()] returns, when it returns. *)
Definition request_json (request : Request) : option value :=
  match request_body request with
  | Json v => Some v
  | _ => None
  end.

Record Response : Type :=
  mkResponse { status_code : Z; content : value }.

(** The object [JSONResponse(body, status_code=code)] once it exists. Its
    constructor renders the body at once, which is [rendered] below. *)
Definition JSONResponse (body : list (str * value)) (code : Z) : Response :=
  mkResponse code (PDict body).

(** What a handler returns when it returns a dict: the answer FastAPI
    makes of it has status 200. FastAPI renders it after the handler has
    returned, see [ask_route]. *)
Definition return_dict (body : list (str * value)) : Response :=
  mkResponse 200 (PDict body).

Definition not_json_compliant : str :=
  lit "Out of range float values are not JSON compliant".

(** The rendering of a response, [json.dumps(content, allow_nan=False)]:
    Starlette does it in the constructor of [JSONResponse], FastAPI for
    the dict a handler returned. A NaN or an infinity raises
    [ValueError]. *)
Definition rendered (r : Response) : exn + Response :=
  if json_compliant (content r) then inr r
  else inl (ValueError not_json_compliant).

(** The collaborators, over a world [W] that holds whatever state they
    have. Each operation returns normally or raises. *)
Class AssistantClient (W : Type) : Type := {
  threads_create : W -> (exn + Thread) * W;
  messages_create : value -> str -> str -> W -> (exn + unit) * W;
  runs_create : value -> str -> W -> (exn + Run) * W;
  runs_retrieve : value -> str -> W -> (exn + Run) * W;
  messages_list : value -> W -> (exn + list Message) * W
}.

Class AnalyticsSink (W : Type) : Type := {
  posthog_capture : str -> str -> list (str * value) -> W -> (exn + unit) * W
}.

(* ================================================================= *)
(** ** Effects: world, exceptions, trace of calls *)

Inductive level : Type := INFO | ERROR.

(** A piece of an f-string. *)
Inductive fragment : Type :=
| Lit (s : str)
| Fmt (v : value)
| FmtExn (e : exn).

Inductive event : Type :=
| EvLog (lvl : level) (msg : list fragment)
| EvThreadsCreate
| EvMessagesCreate (thread_id : value) (role content_ : str)
| EvRunsCreate (thread_id : value) (assistant_id : str)
| EvSleep (seconds : Z)
| EvRunsRetrieve (thread_id : value) (run_id : str)
| EvMessagesList (thread_id : value)
| EvCapture (distinct_id event_name : str) (properties : list (str * value)).

(** How far a handling got: a value, an exception on its way out of the
    handler, or still polling when the fuel ran out. *)
Inductive outcome (A : Type) : Type :=
| Ret (a : A)
| Raise (e : exn)
| Pending.
Arguments Ret {A} a.
Arguments Raise {A} e.
Arguments Pending {A}.

Definition M (W A : Type) : Type := W -> outcome A * W * list event.

Definition ret {W A} (a : A) : M W A := fun w => (Ret a, w, []).

Definition raise {W A} (e : exn) : M W A := fun w => (Raise e, w, []).

Definition pending {W A} : M W A := fun w => (Pending, w, []).

Definition bind {W A B} (m : M W A) (k : A -> M W B) : M W B :=
  fun w =>
    match m w with
    | (Ret a, w1, t1) => let '(o, w2, t2) := k a w1 in (o, w2, t1 ++ t2)
    | (Raise e, w1, t1) => (Raise e, w1, t1)
    | (Pending, w1, t1) => (Pending, w1, t1)
    end.

(** [try: m  except Exception as e: h e] *)
Definition try_except {W A} (m : M W A) (h : exn -> M W A) : M W A :=
  fun w =>
    match m w with
    | (Raise e, w1, t1) => let '(o, w2, t2) := h e w1 in (o, w2, t1 ++ t2)
    | r => r
    end.

(** A pure step that may raise. *)
Definition lift {W A} (r : exn + A) : M W A :=
  match r with inl e => raise e | inr a => ret a end.

(** A call to a collaborator, recorded in the trace when it is made. *)
Definition call {W A} (ev : event) (op : W -> (exn + A) * W) : M W A :=
  fun w =>
    let '(r, w') := op w in
    (match r with inl e => Raise e | inr a => Ret a end, w', [ev]).

Definition emit {W} (ev : event) : M W unit := fun w => (Ret tt, w, [ev]).

Declare Scope monad_scope.
Delimit Scope monad_scope with monad.
Notation "x <- m ;; k" := (bind m (fun x => k))
  (at level 100, m at next level, right associativity) : monad_scope.
Notation "' pat <- m ;; k" := (bind m (fun pat => k))
  (at level 100, pat pattern, m at next level, right associativity)
  : monad_scope.
Notation "m ;; k" := (bind m (fun _ => k))
  (at level 100, right associativity) : monad_scope.
Local Open Scope monad_scope.

(* ================================================================= *)
(** ** server.py *)

(** The statuses on which the loop of [ask] keeps polling. *)
Definition polling_statuses : list str := [lit "queued"; lit "in_progress"].

(** [run.status in ["queued", "in_progress"]] *)
Definition keeps_polling (run : Run) : bool :=
  str_in (Run_status run) polling_statuses.

(** [messages.data[0].content[0].text.value] *)
Definition first_text (data : list Message) : exn + str :=
  match data with
  | [] => inl IndexError
  | m :: _ =>
      match Message_content m with
      | [] => inl IndexError
      | TextContentBlock v :: _ => inr v
      | ImageFileContentBlock _ :: _ =>
          inl (AttributeError (lit "ImageFileContentBlock") (lit "text"))
      | ImageURLContentBlock _ :: _ =>
          inl (AttributeError (lit "ImageURLContentBlock") (lit "text"))
      end
  end.

Definition rate_limit_message : str :=
  lit "Too many requests. Please slow down " ++ [8212%N]
  ++ lit " ShadowClone AI needs a breather " ++ [129302%N; 128168%N].

(** The handler registered last for [RateLimitExceeded]. *)
Definition custom_rate_limit_handler : Response :=
  JSONResponse [(lit "error", PStr rate_limit_message)] 429.

Definition health : Response :=
  return_dict [(lit "status", PStr (lit "ok"))].

Definition ping : Response :=
  return_dict [(lit "message", PStr (lit "pong"))].

Section Server.

Context {W : Type} {client : AssistantClient W} {posthog : AnalyticsSink W}.

(** [SHADOWCLONE_ASSISTANT_ID], read from the environment at start-up. *)
Variable ASSISTANT_ID : str.

(** Lines 93-95: [data], [question], [thread_id]. *)
Definition read_request (request : Request) : M W (str * value) :=
  data <- lift (match request_body request with
                | Json v => inr v
                | NotJSON => inl JSONDecodeError
                | NotText => inl UnicodeDecodeError
                end) ;;
  q <- lift (Py.get data (lit "question") (PStr [])) ;;
  question <- lift (strip_method q) ;;
  thread_id <- lift (Py.get data (lit "thread_id") PNone) ;;
  ret (question, thread_id).

(** Lines 103-108: create or reuse the thread. *)
Definition acquire_thread (thread_id : value) : M W value :=
  if negb (truthy thread_id) then
    thread <- call EvThreadsCreate threads_create ;;
    let thread_id := PStr (Thread_id thread) in
    emit (EvLog INFO [Lit (129504%N :: lit " New thread created: ");
                      Fmt thread_id]) ;;
    ret thread_id
  else
    emit (EvLog INFO [Lit (lit "Using existing thread: "); Fmt thread_id]) ;;
    ret thread_id.

(** Lines 100-121: log, thread, user message, run. *)
Definition start_run (question : str) (thread_id : value)
  : M W (value * Run) :=
  emit (EvLog INFO [Lit (lit "USER QUESTION: "); Fmt (PStr question)]) ;;
  thread_id <- acquire_thread thread_id ;;
  call (EvMessagesCreate thread_id (lit "user") question)
       (messages_create thread_id (lit "user") question) ;;
  run <- call (EvRunsCreate thread_id ASSISTANT_ID)
              (runs_create thread_id ASSISTANT_ID) ;;
  ret (thread_id, run).

(** Lines 124-129: the [while] loop; one unit of fuel per iteration. *)
Fixpoint poll (fuel : nat) (thread_id : value) (run : Run) : M W Run :=
  if keeps_polling run then
    match fuel with
    | O => pending
    | S fuel' =>
        emit (EvSleep 1) ;;
        run' <- call (EvRunsRetrieve thread_id (Run_id run))
                     (runs_retrieve thread_id (Run_id run)) ;;
        poll fuel' thread_id run'
    end
  else ret run.

(** Lines 133-136. *)
Definition retrieve_answer (thread_id : value) : M W Response :=
  messages <- call (EvMessagesList thread_id) (messages_list thread_id) ;;
  answer <- lift (first_text messages) ;;
  emit (EvLog INFO [Lit (lit "ASSISTANT REPLY:" ++ [10%N]);
                    Fmt (PStr answer);
                    Lit (10%N :: repeat 45%N 80)]) ;;
  ret (return_dict [(lit "answer", PStr answer);
                    (lit "thread_id", thread_id)]).

Definition run_failed (status : str) : str :=
  lit "Run failed with status: " ++ status.

(** Lines 138-157. *)
Definition report_failure (request : Request) (question : str)
    (thread_id : value) (run : Run) : M W Response :=
  emit (EvLog ERROR [Lit (run_failed (Run_status run))]) ;;
  (let properties :=
     [(lit "question", PStr question);
      (lit "latency_sec", PInt 2);
      (lit "status", PStr (Run_status run));
      (lit "thread_id", thread_id)] in
   try_except
     (host <- lift (match client_host request with
                    | Some h => inr h
                    | None => inl (AttributeError (lit "NoneType") (lit "host"))
                    end) ;;
      call (EvCapture host (lit "shadowclone_question") properties)
           (posthog_capture host (lit "shadowclone_question") properties))
     (fun e =>
        emit (EvLog ERROR [Lit (lit "PostHog logging failed: "); FmtExn e])))
  ;;
  lift (rendered (JSONResponse
                    [(lit "error", PStr (run_failed (Run_status run)));
                     (lit "thread_id", thread_id)] 500)).

(** Lines 132-157: what follows the loop. *)
Definition conclude (request : Request) (question : str)
    (thread_id : value) (run : Run) : M W Response :=
  if str_eqb (Run_status run) (lit "completed")
  then retrieve_answer thread_id
  else report_failure request question thread_id run.

(** Lines 100-129: up to the exit of the polling loop. *)
Definition until_terminal (fuel : nat) (question : str) (thread_id : value)
  : M W (value * Run) :=
  ' (thread_id, run) <- start_run question thread_id ;;
  run <- poll fuel thread_id run ;;
  ret (thread_id, run).

Definition no_question : Response :=
  JSONResponse [(lit "error", PStr (lit "No question provided."))] 400.

(** The handler of the route [POST /ask]: what the function does and
    returns. *)
Definition ask (fuel : nat) (request : Request) : M W Response :=
  ' (question, thread_id) <- read_request request ;;
  if negb (truthy (PStr question)) then lift (rendered no_question)
  else
    ' (thread_id, run) <- until_terminal fuel question thread_id ;;
    conclude request question thread_id run.

(** What is sent for a request that reached [ask]: FastAPI renders what
    the handler returned. *)
Definition ask_route (fuel : nat) (request : Request) : M W Response :=
  r <- ask fuel request ;;
  lift (rendered r).

End Server.

(* ================================================================= *)
(** ** Admission control in front of [ask] *)

Module RateLimiter.

(** Modelled from the spec: section 4.1, one quota window of the
    limiter, at most [max_count] admissions per [duration] seconds. *)
Record window : Type := mkWindow { max_count : nat; duration : Z }.

(** Modelled from the spec: section 4.1, the process-wide state of the
    limiter, here the admissions so far, newest first, each with its client
    key and its time in seconds. *)
Definition state : Type := list (str * Z).

(** Modelled from the spec: the admissions of [key] later than [since],
    what a rolling window that opened at [since] counts. *)
Definition recent (key : str) (since : Z) (st : state) : state :=
  filter (fun h => str_eqb (fst h) key && (since <? snd h)) st.

(** Modelled from the spec: section 4.1, the window has remaining quota. *)
Definition has_quota (key : str) (now : Z) (st : state) (win : window)
  : bool :=
  (List.length (recent key (now - duration win) st) <? max_count win)%nat.

(** Modelled from the spec: the accounting of slowapi's [Limiter] is not in
    server.py, which only configures it. Section 4.1: a request is admitted
    only if every configured window has remaining quota, an admission
    counts against all windows together, a denial leaves the state as it
    was, and windows are rolling: this is the sliding log. The retry hint
    of a denial is left out, the handler of server.py ignores it. This is
    the contract the spec calls admit. *)
Definition admission (windows : list window) (key : str) (now : Z) (st : state)
  : bool * state :=
  if forallb (has_quota key now st) windows
  then (true, (key, now) :: st)
  else (false, st).

End RateLimiter.

(** ["10/minute;60/hour"] *)
Definition ask_limits : list RateLimiter.window :=
  [RateLimiter.mkWindow 10 60; RateLimiter.mkWindow 60 3600].

(** Modelled from the spec: [key_func=get_remote_address] is slowapi's
    and not in server.py. Sections 3 and 4.1 key the limiter by the network
    identity of the client, its source address; a request without one gets
    the address slowapi falls back on. *)
Definition get_remote_address (request : Request) : str :=
  match client_host request with
  | Some (c :: h) => c :: h
  | _ => lit "127.0.0.1"
  end.

(** What became of one request. *)
Record served : Type := mkServed {
  at_time : Z;
  from_key : str;
  admitted : bool;
  result : outcome Response;
  calls : list event
}.

Section Endpoint.

Context {W : Type} {client : AssistantClient W} {posthog : AnalyticsSink W}.
Variable ASSISTANT_ID : str.

(** [POST /ask]: the decorator [@limiter.limit] runs first and [ask] only
    when it admits; a denial is answered by [custom_rate_limit_handler],
    whose body is a constant that renders. *)
Definition post_ask (fuel : nat) (now : Z) (request : Request)
    (limiter : RateLimiter.state) (w : W)
  : served * RateLimiter.state * W :=
  let key := get_remote_address request in
  let '(ok, limiter') := RateLimiter.admission ask_limits key now limiter in
  if ok then
    let '(o, w', t) := ask_route ASSISTANT_ID fuel request w in
    (mkServed now key true o t, limiter', w')
  else
    (mkServed now key false (Ret custom_rate_limit_handler) [], limiter', w).

(** Requests handled one after the other, each at its arrival time. *)
Fixpoint serve (fuel : nat) (requests : list (Z * Request))
    (limiter : RateLimiter.state) (w : W)
  : list served * RateLimiter.state * W :=
  match requests with
  | [] => ([], limiter, w)
  | (now, request) :: rest =>
      let '(s, limiter', w') := post_ask fuel now request limiter w in
      let '(ss, limiter'', w'') := serve fuel rest limiter' w' in
      (s :: ss, limiter'', w'')
  end.

End Endpoint.

(* ================================================================= *)
(** ** Reading traces and responses *)

Definition is_threads_create (ev : event) : bool :=
  match ev with EvThreadsCreate => true | _ => false end.

Definition is_runs_create (ev : event) : bool :=
  match ev with EvRunsCreate _ _ => true | _ => false end.

Definition is_runs_retrieve (ev : event) : bool :=
  match ev with EvRunsRetrieve _ _ => true | _ => false end.

Definition is_capture (ev : event) : bool :=
  match ev with EvCapture _ _ _ => true | _ => false end.

(** The calls that go to the assistant client. *)
Definition is_client_call (ev : event) : bool :=
  match ev with
  | EvThreadsCreate | EvMessagesCreate _ _ _ | EvRunsCreate _ _
  | EvRunsRetrieve _ _ | EvMessagesList _ => true
  | _ => false
  end.

Definition count (p : event -> bool) (t : list event) : nat :=
  List.length (filter p t).

(** The thread identifier a call is made with. *)
Definition event_thread (ev : event) : option value :=
  match ev with
  | EvMessagesCreate t _ _ | EvRunsCreate t _ | EvRunsRetrieve t _
  | EvMessagesList t => Some t
  | _ => None
  end.

(** Every call of the trace that names a thread names [tid]. *)
Definition on_thread (tid : value) (t : list event) : Prop :=
  Forall (fun ev => forall t', event_thread ev = Some t' -> t' = tid) t.

Definition body_field (k : str) (r : Response) : option value :=
  match content r with
  | PDict items => lookup k items
  | _ => None
  end.

Definition trace_of {W A} (r : outcome A * W * list event) : list event :=
  snd r.

Definition outcome_of {W A} (r : outcome A * W * list event) : outcome A :=
  fst (fst r).

(** The admissions of [key] recorded in the limiter with a time in
    [a, b). *)
Definition hits_in (key : str) (a b : Z) (st : RateLimiter.state) : nat :=
  List.length
    (filter (fun h => str_eqb (fst h) key && (a <=? snd h) && (snd h <? b))
            st).

(** The requests of [key] that were admitted at a time in [a, b). *)
Definition admitted_in (key : str) (a b : Z) (ss : list served) : nat :=
  List.length
    (filter (fun s => admitted s && str_eqb (from_key s) key
                      && (a <=? at_time s) && (at_time s <? b))
            ss).

(** No interval as long as a window holds more admissions of one key than
    the window allows. *)
Definition within_limits (windows : list RateLimiter.window)
    (st : RateLimiter.state) : Prop :=
  forall win, In win windows ->
  forall key a,
    (hits_in key a (a + RateLimiter.duration win) st
     <= RateLimiter.max_count win)%nat.

(** Section 3 of the spec: the text of the most recent message of role
    assistant, in a list that has the most recent message first. *)
Definition most_recent_assistant_text (data : list Message) : option str :=
  match find (fun m => str_eqb (Message_role m) (lit "assistant")) data with
  | Some m =>
      match Message_content m with
      | TextContentBlock v :: _ => Some v
      | _ => None
      end
  | None => None
  end.

(** The responses the loop would see from [run] on: number 0 is [run]
    itself, what [runs.create] returned; number [n + 1] is number [n] of
    what [runs.retrieve] returns for [run]. There is none from the first
    call that raises. *)
Fixpoint response {W} {client : AssistantClient W} (n : nat)
    (thread_id : value) (run : Run) (w : W) : option (Run * W) :=
  match n with
  | O => Some (run, w)
  | S n' =>
      match runs_retrieve thread_id (Run_id run) w with
      | (inr run', w') => response n' thread_id run' w'
      | (inl _, _) => None
      end
  end.

(** [request] carries, in a JSON object, the question that strips to the
    non-empty [question], and [thread_id] is its [data.get("thread_id")]. *)
Definition asks (request : Request) (question : str) (thread_id : value)
  : Prop :=
  exists items q,
    request_json request = Some (PDict items)
    /\ lookup (lit "question") items = Some (PStr q)
    /\ strip q = question
    /\ question <> []
    /\ thread_id = match lookup (lit "thread_id") items with
                   | Some v => v
                   | None => PNone
                   end.

(** The log lines, the capture and the two bodies of [ask]. *)
Definition log_question (question : str) : event :=
  EvLog INFO [Lit (lit "USER QUESTION: "); Fmt (PStr question)].

Definition log_existing (tid : value) : event :=
  EvLog INFO [Lit (lit "Using existing thread: "); Fmt tid].

Definition log_created (tid : value) : event :=
  EvLog INFO [Lit (129504%N :: lit " New thread created: "); Fmt tid].

Definition capture_event (host question : str) (tid : value) (run : Run)
  : event :=
  EvCapture host (lit "shadowclone_question")
    [(lit "question", PStr question); (lit "latency_sec", PInt 2);
     (lit "status", PStr (Run_status run)); (lit "thread_id", tid)].

Definition failure_response (tid : value) (status : str) : Response :=
  JSONResponse [(lit "error", PStr (lit "Run failed with status: " ++ status));
                (lit "thread_id", tid)] 500.

Definition answer_response (tid : value) (answer : str) : Response :=
  mkResponse 200 (PDict [(lit "answer", PStr answer); (lit "thread_id", tid)]).

(** The end of the failure path: the 500 response, if it renders. *)
Definition failure_outcome (tid : value) (status : str) : outcome Response :=
  if json_compliant tid then Ret (failure_response tid status)
  else Raise (ValueError not_json_compliant).

(** The two statuses of line 124. *)
Definition polls_on (status : str) : Prop :=
  status = lit "queued" \/ status = lit "in_progress".

(** The run reaches the status of [r] with response number [n]: every
    response before it has one of the two statuses of line 124. *)
Definition reaches {W} {client : AssistantClient W} (n : nat)
    (thread_id : value) (run : Run) (w : W) (r : Run) (w' : W) : Prop :=
  response n thread_id run w = Some (r, w')
  /\ forall m r' w'', (m < n)%nat ->
       response m thread_id run w = Some (r', w'') ->
       polls_on (Run_status r').

(** Response number [n] is the first whose status is outside the polling
    set. *)
Definition first_terminal {W} {client : AssistantClient W} (n : nat)
    (thread_id : value) (run : Run) (w : W) (r : Run) (w' : W) : Prop :=
  response n thread_id run w = Some (r, w')
  /\ keeps_polling r = false
  /\ forall m r' w'', (m < n)%nat ->
       response m thread_id run w = Some (r', w'') -> keeps_polling r' = true.

(** What may follow the creation of the run on thread [tid]: sleeping,
    fetching the run, listing the messages, logging, capturing. *)
Definition after_run (tid : value) (ev : event) : Prop :=
  match ev with
  | EvSleep _ | EvLog _ _ | EvCapture _ _ _ => True
  | EvRunsRetrieve t _ | EvMessagesList t => t = tid
  | EvThreadsCreate | EvMessagesCreate _ _ _ | EvRunsCreate _ _ => False
  end.

(** The calls of one handling once its thread [tid] is known. *)
Inductive flow (tid : value) (question assistant : str)
  : list event -> Prop :=
| flow_message :
    flow tid question assistant [EvMessagesCreate tid (lit "user") question]
| flow_run rest :
    Forall (after_run tid) rest ->
    flow tid question assistant
         (EvMessagesCreate tid (lit "user") question
          :: EvRunsCreate tid assistant :: rest).

(* ================================================================= *)
(** ** A scripted test double *)

Record Double : Type := mkDouble {
  on_threads_create : exn + Thread;
  on_messages_create : exn + unit;
  on_runs_create : exn + Run;
  retrieve_script : list (exn + Run);
  retrieve_after : exn + Run;
  on_messages_list : exn + list Message;
  on_capture : exn + unit
}.

Definition double_retrieve (d : Double) : (exn + Run) * Double :=
  match retrieve_script d with
  | r :: rest =>
      (r, mkDouble (on_threads_create d) (on_messages_create d)
                   (on_runs_create d) rest (retrieve_after d)
                   (on_messages_list d) (on_capture d))
  | [] => (retrieve_after d, d)
  end.

#[export] Instance double_client : AssistantClient Double := {
  threads_create d := (on_threads_create d, d);
  messages_create _ _ _ d := (on_messages_create d, d);
  runs_create _ _ d := (on_runs_create d, d);
  runs_retrieve _ _ d := double_retrieve d;
  messages_list _ d := (on_messages_list d, d)
}.

#[export] Instance double_sink : AnalyticsSink Double := {
  posthog_capture _ _ _ d := (on_capture d, d)
}.

Definition queued_run : Run := mkRun (lit "run_1") (lit "queued").
Definition completed_run : Run := mkRun (lit "run_1") (lit "completed").
Definition failed_run : Run := mkRun (lit "run_1") (lit "failed").

Definition text_message (role text : string) : Message :=
  mkMessage (lit role) [TextContentBlock (lit text)].

(** Upstream in good order: the run is queued twice, then completed. *)
Definition happy : Double :=
  mkDouble (inr (mkThread (lit "thread_new"))) (inr tt) (inr queued_run)
           [inr queued_run; inr queued_run; inr completed_run]
           (inr completed_run)
           (inr [text_message "assistant" "Hello!"; text_message "user" "hi"])
           (inr tt).

Definition json_request (items : list (str * value)) : Request :=
  mkRequest (Json (PDict items)) (Some (lit "203.0.113.7")).

(** The upstream cannot be reached when the thread is to be created. *)
Definition thread_outage : Double :=
  mkDouble (inl (LibraryError (lit "Connection error."))) (inr tt)
           (inr queued_run) [] (inr completed_run) (inr []) (inr tt).

(** The run completes at once, but a user message is the newest of the
    thread when the messages are listed. *)
Definition interleaved : Double :=
  mkDouble (inr (mkThread (lit "thread_new"))) (inr tt) (inr completed_run)
           [] (inr completed_run)
           (inr [text_message "user" "And another thing";
                 text_message "assistant" "Hello!";
                 text_message "user" "hi"])
           (inr tt).

(** The run completes at once, but listing the messages fails. *)
Definition listing_outage : Double :=
  mkDouble (inr (mkThread (lit "thread_new"))) (inr tt) (inr completed_run)
           [] (inr completed_run)
           (inl (LibraryError (lit "Connection error."))) (inr tt).

(** The run fails after one more fetch, and PostHog is down as well. *)
Definition run_fails : Double :=
  mkDouble (inr (mkThread (lit "thread_new"))) (inr tt) (inr queued_run)
           [inr failed_run] (inr failed_run) (inr [])
           (inl (LibraryError (lit "PostHog unreachable"))).

(** The run stays queued for ever. *)
Definition stuck : Double :=
  mkDouble (inr (mkThread (lit "thread_new"))) (inr tt) (inr queued_run)
           [] (inr queued_run) (inr []) (inr tt).

(** The run completes at once, and the thread lists no message. *)
Definition nothing_listed : Double :=
  mkDouble (inr (mkThread (lit "thread_new"))) (inr tt) (inr completed_run)
           [] (inr completed_run) (inr []) (inr tt).

(** [{"question": "hi", "thread_id": NaN}], which [json.loads] accepts. *)
Definition hello_nan : Request :=
  json_request [(lit "question", PStr (lit "hi"));
                (lit "thread_id", PFloat S754_nan)].

(** [{"question": " hi "}] on a connection without a client address. *)
Definition hello_nobody : Request :=
  mkRequest (Json (PDict [(lit "question", PStr (lit " hi "))])) None.

(** A body that is not text in its encoding. *)
Definition not_text : Request :=
  mkRequest NotText (Some (lit "203.0.113.7")).

(** A body that is a JSON list: [["hi"]]. *)
Definition list_body : Request :=
  mkRequest (Json (PList [PStr (lit "hi")])) (Some (lit "203.0.113.7")).

(** [{"question": " hi "}] *)
Definition hello : Request :=
  json_request [(lit "question", PStr (lit " hi "))].

(** [{"question": "hi", "thread_id": "thread_abc"}] *)
Definition hello_again : Request :=
  json_request [(lit "question", PStr (lit "hi"));
                (lit "thread_id", PStr (lit "thread_abc"))].

(** [{"question": "hi", "thread_id": ""}] *)
Definition hello_empty_thread : Request :=
  json_request [(lit "question", PStr (lit "hi"));
                (lit "thread_id", PStr [])].

(** [{"question": "   "}] *)
Definition blank : Request :=
  json_request [(lit "question", PStr (lit "   "))].

(** [{"question": null}] *)
Definition null_question : Request :=
  json_request [(lit "question", PNone)].

(* ================================================================= *)
(** ** server.py: what runs when the module is loaded *)

(** [os.environ], once [load_dotenv()] has run. *)
Definition environ : Type := list (str * str).

(** [os.getenv(name)] *)
Fixpoint getenv (env : environ) (name : str) : option str :=
  match env with
  | [] => None
  | (k, v) :: rest => if str_eqb name k then Some v else getenv rest name
  end.

(** [os.getenv(name, default)] *)
Definition getenv_default (env : environ) (name default : str) : str :=
  match getenv env name with
  | Some v => v
  | None => default
  end.

(** [s.split(sep)] with a separator of one character. *)
Fixpoint split (sep : N) (s : str) : list str :=
  match s with
  | [] => [[]]
  | c :: s' =>
      if (c =? sep)%N then [] :: split sep s'
      else match split sep s' with
           | piece :: pieces => (c :: piece) :: pieces
           | [] => [[c]]
           end
  end.

(** [sep.join(l)] *)
Fixpoint join (sep : N) (l : list str) : str :=
  match l with
  | [] => []
  | [x] => x
  | x :: rest => x ++ sep :: join sep rest
  end.

(** The comma. *)
Definition comma : N := 44%N.

(** Line 51:
    [[o.strip() for o in os.getenv("CORS_ALLOW_ORIGINS", "*").split(",")]] *)
Definition origins (env : environ) : list str :=
  List.map strip
           (split comma (getenv_default env (lit "CORS_ALLOW_ORIGINS") (lit "*"))).

(** [posthog.project_api_key], [posthog.host] *)
Record PostHogSettings : Type :=
  mkPostHogSettings { project_api_key : str; host : str }.

Definition posthog_warning : str :=
  [9888%N; 65039%N]
  ++ lit "  PostHog not configured (missing POSTHOG_API_KEY)".

(** Lines 20-27: the settings of PostHog, and what is printed. *)
Definition configure_posthog (env : environ)
  : option PostHogSettings * list str :=
  let POSTHOG_KEY := getenv env (lit "POSTHOG_API_KEY") in
  let POSTHOG_HOST :=
    getenv_default env (lit "POSTHOG_HOST") (lit "https://us.i.posthog.com") in
  match POSTHOG_KEY with
  | Some key =>
      if truthy (PStr key)
      then (Some (mkPostHogSettings key POSTHOG_HOST), [])
      else (None, [posthog_warning])
  | None => (None, [posthog_warning])
  end.

Definition assistant_id_not_set : str :=
  10060%N :: lit " SHADOWCLONE_ASSISTANT_ID not set in environment.".

Section Startup.

(** The client object and its constructor [AzureOpenAI(api_key=...,
    azure_endpoint=..., api_version=...)], which is not in server.py. *)
Variable Client : Type.
Variable AzureOpenAI : option str -> option str -> option str -> exn + Client.

(** The module once loaded. *)
Record App : Type := mkApp {
  app_posthog : option PostHogSettings;
  app_origins : list str;
  app_client : Client;
  app_ASSISTANT_ID : str
}.

(** Lines 17-72, in their order: PostHog, CORS, the client, the assistant
    identifier. The load stops on what the constructor of the client raises
    and on the [ValueError] of line 72. The result comes with what was
    printed. *)
Definition startup (env : environ) : list str * (exn + App) :=
  let '(settings, printed) := configure_posthog env in
  let allow_origins := origins env in
  match AzureOpenAI (getenv env (lit "AZURE_OPENAI_API_KEY"))
                    (getenv env (lit "AZURE_OPENAI_ENDPOINT"))
                    (getenv env (lit "AZURE_OPENAI_API_VERSION")) with
  | inl e => (printed, inl e)
  | inr client =>
      match getenv env (lit "SHADOWCLONE_ASSISTANT_ID") with
      | Some id =>
          if truthy (PStr id)
          then (printed, inr (mkApp settings allow_origins client id))
          else (printed, inl (ValueError assistant_id_not_set))
      | None => (printed, inl (ValueError assistant_id_not_set))
      end
  end.

End Startup.

Arguments startup {Client} AzureOpenAI env.
Arguments mkApp {Client}.
Arguments app_posthog {Client}.
Arguments app_origins {Client}.
Arguments app_client {Client}.
Arguments app_ASSISTANT_ID {Client}.

(* ================================================================= *)
(** ** The shape of a handling *)

Definition is_messages_create (ev : event) : bool :=
  match ev with EvMessagesCreate _ _ _ => true | _ => false end.

Definition is_messages_list (ev : event) : bool :=
  match ev with EvMessagesList _ => true | _ => false end.

(** The seconds slept in a trace. *)
Fixpoint slept (t : list event) : Z :=
  match t with
  | [] => 0
  | EvSleep seconds :: t' => seconds + slept t'
  | _ :: t' => slept t'
  end.

(** [q] is [s] without its leading and trailing whitespace. *)
Definition trims (s q : str) : Prop :=
  exists l r,
    s = l ++ q ++ r
    /\ forallb is_space l = true /\ forallb is_space r = true
    /\ (forall c q', q = c :: q' -> is_space c = false)
    /\ (forall c q', q = q' ++ [c] -> is_space c = false).

Definition log_reply (answer : str) : event :=
  EvLog INFO [Lit (lit "ASSISTANT REPLY:" ++ [10%N]); Fmt (PStr answer);
              Lit (10%N :: repeat 45%N 80)].

Definition log_run_failed (status : str) : event :=
  EvLog ERROR [Lit (lit "Run failed with status: " ++ status)].

Definition log_capture_failed (e : exn) : event :=
  EvLog ERROR [Lit (lit "PostHog logging failed: "); FmtExn e].

(** The iterations of the loop: a sleep of one second, then a fetch. *)
Inductive polled (tid : value) : list event -> Prop :=
| polled_nil : polled tid []
| polled_cons rid t :
    polled tid t -> polled tid (EvSleep 1 :: EvRunsRetrieve tid rid :: t).

(** What the [try] of lines 140-152 leaves in the trace: the capture, the
    capture and the log of its failure, or, for a request without a client
    address, the log of the failure to read it. *)
Inductive attempted (request : Request) (q : str) (tid : value) (run : Run)
  : list event -> Prop :=
| capture_returned h :
    client_host request = Some h ->
    attempted request q tid run [capture_event h q tid run]
| capture_raised h e :
    client_host request = Some h ->
    attempted request q tid run
              [capture_event h q tid run; log_capture_failed e]
| capture_without_client :
    client_host request = None ->
    attempted request q tid run
              [log_capture_failed (AttributeError (lit "NoneType") (lit "host"))].

(** After the loop: the answer, or the failure with the attempt at its
    capture and then the 500 response, if it renders. *)
Inductive concluded (request : Request) (q : str) (tid : value)
  : outcome Response -> list event -> Prop :=
| concluded_raised e :
    concluded request q tid (Raise e) [EvMessagesList tid]
| concluded_answer answer :
    concluded request q tid (Ret (answer_response tid answer))
              [EvMessagesList tid; log_reply answer]
| concluded_failed run t :
    Run_status run <> lit "completed" -> keeps_polling run = false ->
    json_compliant tid = true ->
    attempted request q tid run t ->
    concluded request q tid (Ret (failure_response tid (Run_status run)))
              (log_run_failed (Run_status run) :: t)
| concluded_unrendered run t :
    Run_status run <> lit "completed" -> keeps_polling run = false ->
    json_compliant tid = false ->
    attempted request q tid run t ->
    concluded request q tid (Raise (ValueError not_json_compliant))
              (log_run_failed (Run_status run) :: t).

(** From the message on, on thread [tid]. *)
Inductive after_thread (request : Request) (q assistant : str) (tid : value)
  : outcome Response -> list event -> Prop :=
| message_raised e :
    after_thread request q assistant tid (Raise e)
                 [EvMessagesCreate tid (lit "user") q]
| run_raised e :
    after_thread request q assistant tid (Raise e)
                 [EvMessagesCreate tid (lit "user") q;
                  EvRunsCreate tid assistant]
| retrieve_raised e t rid :
    polled tid t ->
    after_thread request q assistant tid (Raise e)
                 (EvMessagesCreate tid (lit "user") q
                  :: EvRunsCreate tid assistant
                  :: t ++ [EvSleep 1; EvRunsRetrieve tid rid])
| still_polling t :
    polled tid t ->
    after_thread request q assistant tid Pending
                 (EvMessagesCreate tid (lit "user") q
                  :: EvRunsCreate tid assistant :: t)
| left_loop t o t' :
    polled tid t -> concluded request q tid o t' ->
    after_thread request q assistant tid o
                 (EvMessagesCreate tid (lit "user") q
                  :: EvRunsCreate tid assistant :: t ++ t').

(** One handling by [ask]: its outcome and its trace. *)
Inductive handled (request : Request) (assistant : str)
  : outcome Response -> list event -> Prop :=
| turned_away :
    handled request assistant (Ret no_question) []
| body_raised e :
    handled request assistant (Raise e) []
| thread_raised q tid0 e :
    asks request q tid0 -> truthy tid0 = false ->
    handled request assistant (Raise e) [log_question q; EvThreadsCreate]
| on_new_thread q tid0 id o t :
    asks request q tid0 -> truthy tid0 = false ->
    after_thread request q assistant (PStr id) o t ->
    handled request assistant o
            (log_question q :: EvThreadsCreate :: log_created (PStr id) :: t)
| on_supplied_thread q tid0 o t :
    asks request q tid0 -> truthy tid0 = true ->
    after_thread request q assistant tid0 o t ->
    handled request assistant o (log_question q :: log_existing tid0 :: t).

(* ================================================================= *)
(** ** Strings *)

Lemma str_eqb_refl (a : str) : str_eqb a a = true.
Proof.
  induction a as [|x a IH]; simpl; [reflexivity|].
  now rewrite N.eqb_refl, IH.
Qed.

Lemma str_eqb_eq (a b : str) : str_eqb a b = true <-> a = b.
Proof.
  split; [|intros ->; apply str_eqb_refl].
  revert b; induction a as [|x a IH]; intros [|y b]; simpl;
    try discriminate; [reflexivity|].
  intros H; apply andb_true_iff in H as [Hx Hab].
  apply N.eqb_eq in Hx; subst y; f_equal; now apply IH.
Qed.

Lemma lstrip_blank (s : str) : forallb is_space s = true -> lstrip s = [].
Proof.
  induction s as [|c s IH]; simpl; [reflexivity|].
  intros H; apply andb_true_iff in H as [Hc Hs].
  now rewrite Hc; apply IH.
Qed.

(** A whitespace-only string strips to the empty one. *)
Lemma strip_blank (s : str) : forallb is_space s = true -> strip s = [].
Proof.
  intros H; unfold strip; rewrite (lstrip_blank s H); reflexivity.
Qed.

Lemma lstrip_nil_blank (s : str) : lstrip s = [] -> forallb is_space s = true.
Proof.
  induction s as [|c s IH]; simpl; [reflexivity|].
  destruct (is_space c); [exact IH | discriminate].
Qed.

(** And only such a string does. *)
Lemma strip_nil_blank (s : str) : strip s = [] -> forallb is_space s = true.
Proof.
  unfold strip, rstrip; intros H.
  assert (Hr : lstrip (rev (lstrip s)) = []).
  { rewrite <- (rev_involutive (lstrip (rev (lstrip s)))), H; reflexivity. }
  apply lstrip_nil_blank in Hr.
  destruct (lstrip s) as [|c s'] eqn:E; [now apply lstrip_nil_blank|].
  exfalso.
  assert (Hc : is_space c = false).
  { clear Hr H; revert E; induction s as [|d s IH]; simpl; [discriminate|].
    destruct (is_space d) eqn:Ed; [exact IH|].
    intros E; injection E as -> _; exact Ed. }
  rewrite forallb_forall in Hr.
  specialize (Hr c); rewrite Hc in Hr.
  assert (In c (rev (c :: s'))) by (apply in_rev; rewrite rev_involutive; now left).
  specialize (Hr H0); discriminate.
Qed.

(* ================================================================= *)
(** ** The handler on its input *)

Section Properties.

Context {W : Type} {client : AssistantClient W} {posthog : AnalyticsSink W}.
Variable ASSISTANT_ID : str.

Lemma request_json_body (request : Request) v :
  request_json request = Some v -> request_body request = Json v.
Proof.
  unfold request_json. destruct (request_body request); congruence.
Qed.

Lemma read_request_str (request : Request) items q (w : W) :
  request_json request = Some (PDict items) ->
  lookup (lit "question") items = Some (PStr q) ->
  read_request request w
  = (Ret (strip q,
          match lookup (lit "thread_id") items with
          | Some v => v
          | None => PNone
          end), w, []).
Proof.
  intros Hj Hq. unfold read_request, bind, lift, Py.get, ret.
  rewrite (request_json_body request _ Hj). simpl. rewrite Hq. reflexivity.
Qed.

Lemma read_request_missing (request : Request) items (w : W) :
  request_json request = Some (PDict items) ->
  lookup (lit "question") items = None ->
  read_request request w
  = (Ret ([],
          match lookup (lit "thread_id") items with
          | Some v => v
          | None => PNone
          end), w, []).
Proof.
  intros Hj Hq. unfold read_request, bind, lift, Py.get, ret.
  rewrite (request_json_body request _ Hj). simpl. rewrite Hq. reflexivity.
Qed.

Lemma ask_no_question (fuel : nat) (request : Request) items (w : W) :
  request_json request = Some (PDict items) ->
  (lookup (lit "question") items = None
   \/ exists s, lookup (lit "question") items = Some (PStr s)
                /\ strip s = []) ->
  ask ASSISTANT_ID fuel request w = (Ret no_question, w, []).
Proof.
  intros Hj [Hq | (s & Hq & Hs)]; unfold ask, bind at 1.
  - rewrite (read_request_missing request items w Hj Hq). reflexivity.
  - rewrite (read_request_str request items s w Hj Hq), Hs. reflexivity.
Qed.

Lemma ask_not_str (fuel : nat) (request : Request) items v (w : W) :
  request_json request = Some (PDict items) ->
  lookup (lit "question") items = Some v ->
  (forall s, v <> PStr s) ->
  ask ASSISTANT_ID fuel request w
  = (Raise (AttributeError (type_name v) (lit "strip")), w, []).
Proof.
  intros Hj Hq Hv.
  unfold ask, bind at 1. unfold read_request, bind, lift, Py.get.
  rewrite (request_json_body request _ Hj). simpl. rewrite Hq.
  destruct v; try reflexivity. exfalso; eapply Hv; reflexivity.
Qed.

(** C1. A request whose question is missing, empty or whitespace-only is
    answered 400 with the body [{"error": "No question provided."}]; the
    world is untouched and nothing is called, so no thread is created, no
    message appended, no run created or fetched and no message listed. *)
Theorem ask_blank_question_400 (fuel : nat) (request : Request) items (w : W) :
  request_json request = Some (PDict items) ->
  (lookup (lit "question") items = None
   \/ exists s, lookup (lit "question") items = Some (PStr s)
                /\ strip s = []) ->
  ask ASSISTANT_ID fuel request w
  = (Ret (JSONResponse [(lit "error", PStr (lit "No question provided."))] 400),
     w, []).
Proof. intros Hj Hq. exact (ask_no_question fuel request items w Hj Hq). Qed.

(** C10. When the key "question" is present with a value that is not a
    string, for instance null, [strip] raises [AttributeError]; the
    exception leaves the handler, which returns no response at all, the 400
    one included, and has called nothing. *)
Theorem ask_question_not_a_string (fuel : nat) (request : Request) items v
    (w : W) :
  request_json request = Some (PDict items) ->
  lookup (lit "question") items = Some v ->
  (forall s, v <> PStr s) ->
  ask ASSISTANT_ID fuel request w
  = (Raise (AttributeError (type_name v) (lit "strip")), w, [])
  /\ forall r, outcome_of (ask ASSISTANT_ID fuel request w) <> Ret r.
Proof.
  intros Hj Hq Hv.
  pose proof (ask_not_str fuel request items v w Hj Hq Hv) as E.
  split; [exact E|]. rewrite E. discriminate.
Qed.

End Properties.

(* ================================================================= *)
(** ** The polling loop *)

Section Polling.

Context {W : Type} {client : AssistantClient W} {posthog : AnalyticsSink W}.

Lemma poll_done (fuel : nat) tid run (w : W) :
  keeps_polling run = false -> poll fuel tid run w = (Ret run, w, []).
Proof. intros H. destruct fuel; simpl; rewrite H; reflexivity. Qed.

Lemma poll_step (fuel : nat) tid run (w : W) :
  keeps_polling run = true ->
  poll (S fuel) tid run w
  = match runs_retrieve tid (Run_id run) w with
    | (inr run', w') =>
        let '(o, w'', t) := poll fuel tid run' w' in
        (o, w'', EvSleep 1 :: EvRunsRetrieve tid (Run_id run) :: t)
    | (inl e, w') =>
        (Raise e, w', [EvSleep 1; EvRunsRetrieve tid (Run_id run)])
    end.
Proof.
  intros H. simpl. rewrite H. unfold bind, emit, call.
  destruct (runs_retrieve tid (Run_id run) w) as [[e|run'] w']; [reflexivity|].
  destruct (poll fuel tid run' w') as [[o w''] t]. reflexivity.
Qed.

Lemma poll_out_of_fuel tid run (w : W) :
  keeps_polling run = true -> poll 0 tid run w = (Pending, w, []).
Proof. intros H. simpl. rewrite H. reflexivity. Qed.

(** The loop sleeps and fetches the run of its thread, nothing else. *)
Lemma poll_trace (fuel : nat) tid run (w : W) :
  Forall (fun ev => ev = EvSleep 1 \/ exists rid, ev = EvRunsRetrieve tid rid)
         (trace_of (poll fuel tid run w)).
Proof.
  revert run w; induction fuel as [|fuel IH]; intros run w;
    destruct (keeps_polling run) eqn:K;
    try (rewrite (poll_done _ _ _ _ K); constructor).
  - rewrite (poll_out_of_fuel _ _ _ K); constructor.
  - rewrite (poll_step _ _ _ _ K).
    destruct (runs_retrieve tid (Run_id run) w) as [[e|run'] w'].
    + constructor; [now left|].
      constructor; [right; eexists; reflexivity | constructor].
    + specialize (IH run' w').
      destruct (poll fuel tid run' w') as [[o w''] t].
      constructor; [now left|]. constructor; [right; eexists; reflexivity|].
      exact IH.
Qed.

(** When the loop is left, the status is outside the polling set. *)
Lemma poll_ret_terminal (fuel : nat) tid run (w : W) r w' t :
  poll fuel tid run w = (Ret r, w', t) -> keeps_polling r = false.
Proof.
  revert run w t; induction fuel as [|fuel IH]; intros run w t;
    destruct (keeps_polling run) eqn:K;
    try (rewrite (poll_done _ _ _ _ K); intros [= <- _ _]; exact K).
  - rewrite (poll_out_of_fuel _ _ _ K). discriminate.
  - rewrite (poll_step _ _ _ _ K).
    destruct (runs_retrieve tid (Run_id run) w) as [[e|run'] w1];
      [discriminate|].
    destruct (poll fuel tid run' w1) as [[o w2] t2] eqn:P.
    intros [= -> -> _]. eapply IH; eassumption.
Qed.

(** The loop leaves with the first response outside the polling set, after
    as many fetches as that response's number. *)
Lemma poll_first_terminal (n : nat) tid run (w : W) r w' :
  first_terminal n tid run w r w' ->
  forall fuel, (n <= fuel)%nat ->
  exists t, poll fuel tid run w = (Ret r, w', t)
            /\ count is_runs_retrieve t = n.
Proof.
  revert run w; induction n as [|n IH]; intros run w (Hr & Hk & Hlt) fuel Hf.
  - simpl in Hr. injection Hr as -> ->.
    exists []. split; [now apply poll_done | reflexivity].
  - assert (K : keeps_polling run = true).
    { apply (Hlt 0%nat run w); [lia | reflexivity]. }
    destruct fuel as [|fuel]; [lia|].
    rewrite (poll_step _ _ _ _ K).
    simpl in Hr.
    destruct (runs_retrieve tid (Run_id run) w) as [[e|run'] w1] eqn:R;
      [discriminate|].
    destruct (IH run' w1) with (fuel := fuel) as (t & P & C); [| lia |].
    { split; [exact Hr|]. split; [exact Hk|].
      intros m r' w'' Hm Hm'. apply (Hlt (S m) r' w''); [lia|].
      simpl. rewrite R. exact Hm'. }
    rewrite P. eexists; split; [reflexivity|].
    unfold count in *. simpl. now rewrite C.
Qed.

(** Conversely the run the loop leaves with is such a first response. *)
Lemma poll_ret_first_terminal (fuel : nat) tid run (w : W) r w' t :
  poll fuel tid run w = (Ret r, w', t) ->
  exists n, (n <= fuel)%nat /\ first_terminal n tid run w r w'
            /\ count is_runs_retrieve t = n.
Proof.
  revert run w t; induction fuel as [|fuel IH]; intros run w t;
    destruct (keeps_polling run) eqn:K.
  - rewrite (poll_out_of_fuel _ _ _ K). discriminate.
  - rewrite (poll_done _ _ _ _ K). intros [= <- <- <-].
    exists 0%nat. repeat split; try lia; try assumption; intros; lia.
  - rewrite (poll_step _ _ _ _ K).
    destruct (runs_retrieve tid (Run_id run) w) as [[e|run'] w1] eqn:R;
      [discriminate|].
    destruct (poll fuel tid run' w1) as [[o w2] t2] eqn:P.
    intros [= -> -> <-].
    destruct (IH _ _ _ P) as (n & Hn & (Hr & Hk & Hlt) & C).
    exists (S n). split; [lia|]. split.
    + split; [simpl; rewrite R; exact Hr|]. split; [exact Hk|].
      intros [|m] r' w'' Hm; simpl.
      * intros [= <- <-]. exact K.
      * rewrite R. apply Hlt. lia.
    + unfold count in *. simpl. now rewrite C.
  - rewrite (poll_done _ _ _ _ K). intros [= <- <- <-].
    exists 0%nat. repeat split; try lia; try assumption; intros; lia.
Qed.

(** Some response outside the polling set has a first one before it. *)
Lemma response_first_terminal (n : nat) tid run (w : W) r w' :
  response n tid run w = Some (r, w') -> keeps_polling r = false ->
  exists m r0 w0, (m <= n)%nat /\ first_terminal m tid run w r0 w0.
Proof.
  revert run w; induction n as [|n IH]; intros run w Hr Hk.
  - exists 0%nat, r, w'. split; [lia|]. repeat split; try assumption;
    intros; lia.
  - destruct (keeps_polling run) eqn:K.
    + simpl in Hr.
      destruct (runs_retrieve tid (Run_id run) w) as [[e|run'] w1] eqn:R;
        [discriminate|].
      destruct (IH _ _ Hr Hk) as (m & r0 & w0 & Hm & (Hr0 & Hk0 & Hlt)).
      exists (S m), r0, w0. split; [lia|]. split; [simpl; now rewrite R|].
      split; [exact Hk0|].
      intros [|k] r' w'' Hk'; simpl.
      * intros [= <- <-]. exact K.
      * rewrite R. apply Hlt. lia.
    + exists 0%nat, run, w. split; [lia|]. repeat split; try assumption;
      intros; lia.
Qed.

(** While every response so far is in the polling set, the loop goes on:
    with [fuel] iterations allowed it has fetched [fuel] times and has not
    left. *)
Lemma poll_still_polling (fuel : nat) tid run (w : W) :
  (forall m, (m <= fuel)%nat ->
     exists r' w'', response m tid run w = Some (r', w'')
                    /\ keeps_polling r' = true) ->
  exists w' t, poll fuel tid run w = (Pending, w', t)
               /\ count is_runs_retrieve t = fuel.
Proof.
  revert run w; induction fuel as [|fuel IH]; intros run w H.
  - destruct (H 0%nat) as (r' & w'' & [= <- <-] & K); [lia|].
    exists w, []. split; [now apply poll_out_of_fuel | reflexivity].
  - destruct (H 0%nat) as (r' & w'' & [= <- <-] & K); [lia|].
    rewrite (poll_step _ _ _ _ K).
    destruct (H 1%nat) as (r1 & w1 & R1 & _); [lia|]. simpl in R1.
    destruct (runs_retrieve tid (Run_id run) w) as [[e|run'] w2] eqn:R;
      [discriminate|].
    destruct (IH run' w2) as (w' & t & P & C).
    { intros m Hm. destruct (H (S m)) as (r2 & w3 & R2 & K2); [lia|].
      simpl in R2. rewrite R in R2. eauto. }
    rewrite P. do 2 eexists. split; [reflexivity|].
    unfold count in *. simpl. now rewrite C.
Qed.

(** More iterations allowed change nothing once the loop was left. *)
Lemma poll_more_fuel (fuel fuel' : nat) tid run (w : W) r w' t :
  poll fuel tid run w = (Ret r, w', t) -> (fuel <= fuel')%nat ->
  poll fuel' tid run w = (Ret r, w', t).
Proof.
  revert fuel' run w t; induction fuel as [|fuel IH]; intros fuel' run w t;
    destruct (keeps_polling run) eqn:K;
    try (rewrite !(poll_done _ _ _ _ K); tauto).
  - rewrite (poll_out_of_fuel _ _ _ K). discriminate.
  - intros P Hf. destruct fuel' as [|fuel']; [lia|].
    rewrite (poll_step fuel tid run w K) in P.
    rewrite (poll_step fuel' tid run w K).
    destruct (runs_retrieve tid (Run_id run) w) as [[e|run'] w1];
      [exact P|].
    destruct (poll fuel tid run' w1) as [[o w2] t2] eqn:P1.
    injection P as -> -> <-.
    rewrite (IH fuel' run' w1 t2 P1); [reflexivity | lia].
Qed.

(** The loop keeps polling on the two statuses of line 124 and on no
    other. *)
Lemma keeps_polling_polls_on (run : Run) :
  keeps_polling run = true <-> polls_on (Run_status run).
Proof.
  unfold keeps_polling, polls_on, polling_statuses, str_in. simpl.
  rewrite orb_false_r, orb_true_iff, !str_eqb_eq. reflexivity.
Qed.

Lemma reaches_first_terminal (n : nat) tid run (w : W) r w' :
  reaches n tid run w r w' -> ~ polls_on (Run_status r) ->
  first_terminal n tid run w r w'.
Proof.
  intros (Hr & Hlt) N. split; [exact Hr|]. split.
  - destruct (keeps_polling r) eqn:K; [|reflexivity].
    apply keeps_polling_polls_on in K. contradiction.
  - intros m r' w'' Hm E. apply keeps_polling_polls_on.
    exact (Hlt m r' w'' Hm E).
Qed.

End Polling.

(* ================================================================= *)
(** ** The phases of [ask] *)

Section Phases.

Context {W : Type} {client : AssistantClient W} {posthog : AnalyticsSink W}.
Variable ASSISTANT_ID : str.

Lemma acquire_thread_reuse tid0 (w : W) :
  truthy tid0 = true ->
  acquire_thread tid0 w = (Ret tid0, w, [log_existing tid0]).
Proof. intros T. unfold acquire_thread. rewrite T. reflexivity. Qed.

Lemma acquire_thread_create tid0 (w : W) :
  truthy tid0 = false ->
  acquire_thread tid0 w
  = match threads_create w with
    | (inr th, w1) =>
        (Ret (PStr (Thread_id th)), w1,
         [EvThreadsCreate; log_created (PStr (Thread_id th))])
    | (inl e, w1) => (Raise e, w1, [EvThreadsCreate])
    end.
Proof.
  intros T. unfold acquire_thread. rewrite T. simpl.
  unfold bind, call, emit, ret.
  destruct (threads_create w) as [[e|th] w1]; reflexivity.
Qed.

Lemma until_terminal_acquired fuel q tid0 (w : W) tid w1 t1 :
  acquire_thread tid0 w = (Ret tid, w1, t1) ->
  until_terminal ASSISTANT_ID fuel q tid0 w
  = match messages_create tid (lit "user") q w1 with
    | (inl e, w2) =>
        (Raise e, w2,
         log_question q :: t1 ++ [EvMessagesCreate tid (lit "user") q])
    | (inr _, w2) =>
        match runs_create tid ASSISTANT_ID w2 with
        | (inl e, w3) =>
            (Raise e, w3,
             log_question q
             :: t1 ++ [EvMessagesCreate tid (lit "user") q;
                       EvRunsCreate tid ASSISTANT_ID])
        | (inr run, w3) =>
            let '(o, w4, t4) := poll fuel tid run w3 in
            (match o with
             | Ret r => Ret (tid, r)
             | Raise e => Raise e
             | Pending => Pending
             end, w4,
             log_question q
             :: t1 ++ EvMessagesCreate tid (lit "user") q
                   :: EvRunsCreate tid ASSISTANT_ID :: t4)
        end
    end.
Proof.
  intros A. unfold until_terminal, start_run, bind, emit, call, ret.
  rewrite A.
  destruct (messages_create tid (lit "user") q w1) as [[e|[]] w2];
    [reflexivity|].
  destruct (runs_create tid ASSISTANT_ID w2) as [[e|run] w3]; [reflexivity|].
  destruct (poll fuel tid run w3) as [[[r|e|] w4] t4]; simpl;
    repeat (rewrite <- app_assoc; simpl); rewrite ?app_nil_r; reflexivity.
Qed.

Lemma until_terminal_not_acquired fuel q tid0 (w : W) e w1 t1 :
  acquire_thread tid0 w = (Raise e, w1, t1) ->
  until_terminal ASSISTANT_ID fuel q tid0 w = (Raise e, w1, log_question q :: t1).
Proof.
  intros A. unfold until_terminal, start_run, bind, emit. rewrite A.
  reflexivity.
Qed.

Lemma acquire_thread_not_pending tid0 (w : W) w1 t1 :
  acquire_thread tid0 w <> (Pending, w1, t1).
Proof.
  destruct (truthy tid0) eqn:T.
  - rewrite (acquire_thread_reuse _ _ T). discriminate.
  - rewrite (acquire_thread_create _ _ T).
    destruct (threads_create w) as [[e|th] w2]; discriminate.
Qed.

Lemma conclude_completed request q tid run (w : W) :
  Run_status run = lit "completed" ->
  conclude request q tid run w
  = match messages_list tid w with
    | (inr data, w1) =>
        match first_text data with
        | inr answer =>
            (Ret (answer_response tid answer), w1,
             [EvMessagesList tid;
              EvLog INFO [Lit (lit "ASSISTANT REPLY:" ++ [10%N]);
                          Fmt (PStr answer);
                          Lit (10%N :: repeat 45%N 80)]])
        | inl e => (Raise e, w1, [EvMessagesList tid])
        end
    | (inl e, w1) => (Raise e, w1, [EvMessagesList tid])
    end.
Proof.
  intros S. unfold conclude. rewrite S, str_eqb_refl.
  unfold retrieve_answer, bind, call, lift, emit, ret, raise.
  destruct (messages_list tid w) as [[e|data] w1]; [reflexivity|].
  destruct (first_text data) as [e|answer]; reflexivity.
Qed.

Lemma rendered_failure tid status :
  rendered (failure_response tid status)
  = if json_compliant tid then inr (failure_response tid status)
    else inl (ValueError not_json_compliant).
Proof.
  unfold rendered, failure_response, JSONResponse. simpl.
  rewrite andb_true_r. reflexivity.
Qed.

Lemma rendered_answer tid answer :
  rendered (answer_response tid answer)
  = if json_compliant tid then inr (answer_response tid answer)
    else inl (ValueError not_json_compliant).
Proof.
  unfold rendered, answer_response. simpl.
  rewrite andb_true_r. reflexivity.
Qed.

Lemma conclude_failed request q tid run (w : W) :
  Run_status run <> lit "completed" ->
  conclude request q tid run w
  = match client_host request with
    | Some h =>
        match posthog_capture h (lit "shadowclone_question")
                [(lit "question", PStr q); (lit "latency_sec", PInt 2);
                 (lit "status", PStr (Run_status run)); (lit "thread_id", tid)]
                w
        with
        | (inr _, w1) =>
            (failure_outcome tid (Run_status run), w1,
             [log_run_failed (Run_status run); capture_event h q tid run])
        | (inl e, w1) =>
            (failure_outcome tid (Run_status run), w1,
             [log_run_failed (Run_status run); capture_event h q tid run;
              log_capture_failed e])
        end
    | None =>
        (failure_outcome tid (Run_status run), w,
         [log_run_failed (Run_status run);
          log_capture_failed (AttributeError (lit "NoneType") (lit "host"))])
    end.
Proof.
  intros S. unfold conclude.
  destruct (str_eqb (Run_status run) (lit "completed")) eqn:E.
  { apply str_eqb_eq in E. contradiction. }
  unfold report_failure, failure_outcome.
  change (JSONResponse [(lit "error", PStr (run_failed (Run_status run)));
                        (lit "thread_id", tid)] 500)
    with (failure_response tid (Run_status run)).
  rewrite rendered_failure.
  destruct (client_host request) as [h|];
    unfold bind, try_except, call, emit, lift, capture_event;
    cbv beta iota; unfold ret, raise; cbv beta iota.
  - destruct (posthog_capture _ _ _ w) as [[e|[]] w1];
      destruct (json_compliant tid); reflexivity.
  - destruct (json_compliant tid); reflexivity.
Qed.

Lemma conclude_trace request q tid run (w : W) :
  Forall (after_run tid) (trace_of (conclude request q tid run w)).
Proof.
  destruct (str_eqb (Run_status run) (lit "completed")) eqn:E.
  - apply str_eqb_eq in E. rewrite (conclude_completed _ _ _ _ _ E).
    destruct (messages_list tid w) as [[e|data] w1];
      [|destruct (first_text data)]; repeat constructor.
  - assert (S : Run_status run <> lit "completed").
    { intros S. rewrite S, str_eqb_refl in E. discriminate. }
    rewrite (conclude_failed _ _ _ _ _ S).
    destruct (client_host request) as [h|];
      [destruct (posthog_capture _ _ _ w) as [[e|u] w1]|];
      repeat constructor.
Qed.

Lemma conclude_thread request q tid run (w : W) r :
  outcome_of (conclude request q tid run w) = Ret r ->
  body_field (lit "thread_id") r = Some tid.
Proof.
  destruct (str_eqb (Run_status run) (lit "completed")) eqn:E.
  - apply str_eqb_eq in E. rewrite (conclude_completed _ _ _ _ _ E).
    destruct (messages_list tid w) as [[e|data] w1];
      [|destruct (first_text data)]; try discriminate.
    intros [= <-]. reflexivity.
  - assert (S : Run_status run <> lit "completed").
    { intros S. rewrite S, str_eqb_refl in E. discriminate. }
    rewrite (conclude_failed _ _ _ _ _ S). unfold failure_outcome.
    destruct (client_host request) as [h|];
      [destruct (posthog_capture _ _ _ w) as [[e|u] w1]|];
      destruct (json_compliant tid); try discriminate;
      intros [= <-]; reflexivity.
Qed.

End Phases.

(* ================================================================= *)
(** ** Traces of an accepted request *)

Lemma count_app (p : event -> bool) (a b : list event) :
  count p (a ++ b) = (count p a + count p b)%nat.
Proof. unfold count. now rewrite filter_app, length_app. Qed.

Lemma after_run_counts tid (t : list event) :
  Forall (after_run tid) t ->
  count is_runs_create t = 0%nat /\ count is_threads_create t = 0%nat
  /\ on_thread tid t.
Proof.
  induction 1 as [|ev t Hev _ (IH1 & IH2 & IH3)].
  - repeat split. constructor.
  - unfold count in *.
    destruct ev; simpl in *; try contradiction;
      (split; [exact IH1|]; split; [exact IH2|]);
      constructor; try exact IH3; simpl; intros t'; try discriminate;
      intros [= <-]; congruence.
Qed.

Lemma flow_counts tid q assistant (t : list event) :
  flow tid q assistant t ->
  (count is_runs_create t <= 1)%nat /\ count is_threads_create t = 0%nat
  /\ on_thread tid t
  /\ (forall ev, In ev t -> is_runs_create ev = true ->
        ev = EvRunsCreate tid assistant).
Proof.
  intros [|rest Hrest].
  - repeat split; try (unfold count; simpl; lia).
    + repeat constructor. simpl. now intros t' [= <-].
    + intros ev [<-|[]]; discriminate.
  - destruct (after_run_counts tid rest Hrest) as (C1 & C2 & C3).
    unfold count in *; simpl. rewrite C1, C2. repeat split; try lia.
    + constructor; [simpl; now intros t' [= <-]|].
      constructor; [simpl; now intros t' [= <-]|]. exact C3.
    + intros ev [<-|[<-|Hin]]; try discriminate; [reflexivity|].
      intros Hc. exfalso.
      rewrite Forall_forall in Hrest. specialize (Hrest ev Hin).
      destruct ev; simpl in *; try discriminate; contradiction.
Qed.

Section Accepted.

Context {W : Type} {client : AssistantClient W} {posthog : AnalyticsSink W}.
Variable ASSISTANT_ID : str.

Lemma read_request_asks request q tid0 (w : W) :
  asks request q tid0 -> read_request request w = (Ret (q, tid0), w, []).
Proof.
  intros (items & q0 & Hj & Hq & <- & _ & ->).
  exact (read_request_str request items q0 w Hj Hq).
Qed.

Lemma ask_accepted fuel request q tid0 (w : W) :
  asks request q tid0 ->
  ask ASSISTANT_ID fuel request w
  = match until_terminal ASSISTANT_ID fuel q tid0 w with
    | (Ret (tid, run), w1, t1) =>
        let '(o, w2, t2) := conclude request q tid run w1 in
        (o, w2, t1 ++ t2)
    | (Raise e, w1, t1) => (Raise e, w1, t1)
    | (Pending, w1, t1) => (Pending, w1, t1)
    end.
Proof.
  intros H. pose proof H as (_ & _ & _ & _ & _ & Hne & _).
  unfold ask. unfold bind at 1. rewrite (read_request_asks request q tid0 w H).
  destruct q as [|c q]; [contradiction|].
  cbv beta iota delta [negb truthy]. unfold bind.
  destruct (until_terminal ASSISTANT_ID fuel (c :: q) tid0 w)
    as [[[[tid run]|e|] w1] t1]; try reflexivity.
  destruct (conclude request (c :: q) tid run w1) as [[o w2] t2]. reflexivity.
Qed.

Lemma ask_not_acquired fuel request q tid0 (w : W) e w1 t1 :
  asks request q tid0 ->
  acquire_thread tid0 w = (Raise e, w1, t1) ->
  ask ASSISTANT_ID fuel request w = (Raise e, w1, log_question q :: t1).
Proof.
  intros H A. rewrite (ask_accepted fuel request q tid0 w H).
  now rewrite (until_terminal_not_acquired ASSISTANT_ID fuel q tid0 w e w1 t1 A).
Qed.

(** Once the thread is acquired as [tid], everything happens on [tid]. *)
Lemma ask_flow fuel request q tid0 (w : W) tid w1 t1 :
  asks request q tid0 ->
  acquire_thread tid0 w = (Ret tid, w1, t1) ->
  exists t2,
    trace_of (ask ASSISTANT_ID fuel request w) = log_question q :: t1 ++ t2
    /\ flow tid q ASSISTANT_ID t2
    /\ (forall r, outcome_of (ask ASSISTANT_ID fuel request w) = Ret r ->
          body_field (lit "thread_id") r = Some tid)
    /\ (forall u w2, messages_create tid (lit "user") q w1 = (inr u, w2) ->
          count is_runs_create t2 = 1%nat).
Proof.
  intros H A. rewrite (ask_accepted fuel request q tid0 w H).
  rewrite (until_terminal_acquired ASSISTANT_ID fuel q tid0 w tid w1 t1 A).
  destruct (messages_create tid (lit "user") q w1) as [[e|u] w2].
  { eexists. split; [reflexivity|]. split; [constructor|].
    split; [discriminate|]. discriminate. }
  destruct (runs_create tid ASSISTANT_ID w2) as [[e|run] w3].
  { eexists. split; [reflexivity|]. split; [constructor; constructor|].
    split; [discriminate|]. reflexivity. }
  pose proof (poll_trace fuel tid run w3) as PT.
  destruct (poll fuel tid run w3) as [[[r|e|] w4] t4]; unfold trace_of in PT;
    simpl in PT.
  - pose proof (conclude_trace request q tid r w4) as CT.
    pose proof (conclude_thread request q tid r w4) as CR.
    destruct (conclude request q tid r w4) as [[o w5] t5].
    unfold trace_of, outcome_of in *; simpl in *.
    exists (EvMessagesCreate tid (lit "user") q
            :: EvRunsCreate tid ASSISTANT_ID :: t4 ++ t5).
    assert (F : Forall (after_run tid) (t4 ++ t5)).
    { apply Forall_app. split; [|exact CT].
      eapply Forall_impl; [|exact PT].
      intros ev [->|(rid & ->)]; simpl; auto. }
    split; [now rewrite <- app_assoc|]. split; [now constructor|].
    split; [exact CR|]. intros _ _ _.
    destruct (after_run_counts tid _ F) as (C & _).
    unfold count in *. simpl. now rewrite C.
  - assert (F : Forall (after_run tid) t4).
    { eapply Forall_impl; [|exact PT].
      intros ev [->|(rid & ->)]; simpl; auto. }
    eexists. split; [reflexivity|]. split; [now constructor|].
    split; [discriminate|]. intros _ _ _.
    destruct (after_run_counts tid _ F) as (C & _).
    unfold count in *. simpl. now rewrite C.
  - assert (F : Forall (after_run tid) t4).
    { eapply Forall_impl; [|exact PT].
      intros ev [->|(rid & ->)]; simpl; auto. }
    eexists. split; [reflexivity|]. split; [now constructor|].
    split; [discriminate|]. intros _ _ _.
    destruct (after_run_counts tid _ F) as (C & _).
    unfold count in *. simpl. now rewrite C.
Qed.

Lemma asks_unique request q tid q' tid' :
  asks request q tid -> asks request q' tid' -> q = q' /\ tid = tid'.
Proof.
  intros (items & s & Hj & Hq & <- & _ & ->)
         (items' & s' & Hj' & Hq' & <- & _ & ->).
  rewrite Hj in Hj'. injection Hj' as <-.
  rewrite Hq in Hq'. injection Hq' as <-. now split.
Qed.

(** A request with a JSON object either carries a question, or is turned
    away before anything is called. *)
Lemma ask_cases fuel request items (w : W) :
  request_json request = Some (PDict items) ->
  (exists q, asks request q
               match lookup (lit "thread_id") items with
               | Some v => v
               | None => PNone
               end)
  \/ (trace_of (ask ASSISTANT_ID fuel request w) = []
      /\ forall r, outcome_of (ask ASSISTANT_ID fuel request w) = Ret r ->
                   r = no_question).
Proof.
  intros Hj. destruct (lookup (lit "question") items) as [v|] eqn:Hq.
  - assert (N : (forall s, v <> PStr s) ->
                trace_of (ask ASSISTANT_ID fuel request w) = []
                /\ forall r, outcome_of (ask ASSISTANT_ID fuel request w)
                             = Ret r -> r = no_question).
    { intros Hv.
      rewrite (ask_not_str ASSISTANT_ID fuel request items v w Hj Hq Hv).
      split; [reflexivity | discriminate]. }
    destruct v as [| | | |s| |]; try (right; apply N; discriminate).
    destruct (strip s) as [|c q] eqn:Hs.
    + right.
      rewrite (ask_no_question ASSISTANT_ID fuel request items w Hj
                 (or_intror (ex_intro _ s (conj Hq Hs)))).
      split; [reflexivity|]. now intros r [= <-].
    + left. exists (c :: q), items, s. repeat split; auto. discriminate.
  - right.
    rewrite (ask_no_question ASSISTANT_ID fuel request items w Hj
               (or_introl Hq)).
    split; [reflexivity|]. now intros r [= <-].
Qed.

End Accepted.

(* ================================================================= *)
(** ** Threads and runs of an accepted request *)

Section Threads.

Context {W : Type} {client : AssistantClient W} {posthog : AnalyticsSink W}.
Variable ASSISTANT_ID : str.

Lemma on_thread_cons_free tid ev (t : list event) :
  event_thread ev = None -> on_thread tid t -> on_thread tid (ev :: t).
Proof.
  intros E H. constructor; [|exact H]. intros t'. rewrite E. discriminate.
Qed.

(** C2, as the code has it. An accepted request creates at most one run,
    and exactly one as soon as its thread was acquired and its message
    appended; the polling loop sleeps and retrieves the run on the request's
    thread and calls nothing else, so it creates no second run. *)
Theorem ask_creates_one_run (fuel : nat) (request : Request) q tid0 (w : W) :
  asks request q tid0 ->
  (count is_runs_create (trace_of (ask ASSISTANT_ID fuel request w)) <= 1)%nat
  /\ (forall tid w1 t1 u w2,
        acquire_thread tid0 w = (Ret tid, w1, t1) ->
        messages_create tid (lit "user") q w1 = (inr u, w2) ->
        count is_runs_create (trace_of (ask ASSISTANT_ID fuel request w))
        = 1%nat)
  /\ (forall tid run (w' : W),
        Forall (fun ev => ev = EvSleep 1
                          \/ exists rid, ev = EvRunsRetrieve tid rid)
               (trace_of (poll fuel tid run w'))).
Proof.
  intros H.
  assert (T1 : forall o w1 t1, acquire_thread tid0 w = (o, w1, t1) ->
                 count is_runs_create t1 = 0%nat).
  { intros o w1 t1. destruct (truthy tid0) eqn:T.
    - rewrite (acquire_thread_reuse tid0 w T). now intros [= _ _ <-].
    - rewrite (acquire_thread_create tid0 w T).
      destruct (threads_create w) as [[e|th] w']; now intros [= _ _ <-]. }
  split; [|split].
  - destruct (acquire_thread tid0 w) as [[[tid|e|] w1] t1] eqn:A.
    + destruct (ask_flow ASSISTANT_ID fuel request q tid0 w tid w1 t1 H A)
        as (t2 & -> & F & _).
      change (log_question q :: t1 ++ t2) with ([log_question q] ++ t1 ++ t2).
      rewrite !count_app, (T1 _ _ _ eq_refl).
      destruct (flow_counts tid q ASSISTANT_ID t2 F) as (C & _).
      unfold count at 1. simpl. lia.
    + rewrite (ask_not_acquired ASSISTANT_ID fuel request q tid0 w e w1 t1 H A).
      unfold trace_of; simpl.
      change (log_question q :: t1) with ([log_question q] ++ t1).
      rewrite count_app, (T1 _ _ _ eq_refl). unfold count; simpl. lia.
    + exfalso. exact (acquire_thread_not_pending tid0 w w1 t1 A).
  - intros tid w1 t1 u w2 A Hm.
    destruct (ask_flow ASSISTANT_ID fuel request q tid0 w tid w1 t1 H A)
      as (t2 & -> & _ & _ & C).
    change (log_question q :: t1 ++ t2) with ([log_question q] ++ t1 ++ t2).
    rewrite !count_app, (T1 _ _ _ A), (C u w2 Hm). reflexivity.
  - intros tid run w'. apply poll_trace.
Qed.

Lemma ask_on_supplied_thread (fuel : nat) (request : Request) q tid0
    (w : W) :
  asks request q tid0 ->
  truthy tid0 = true ->
  count is_threads_create (trace_of (ask ASSISTANT_ID fuel request w)) = 0%nat
  /\ on_thread tid0 (trace_of (ask ASSISTANT_ID fuel request w))
  /\ In (EvMessagesCreate tid0 (lit "user") q)
        (trace_of (ask ASSISTANT_ID fuel request w))
  /\ (forall ev, In ev (trace_of (ask ASSISTANT_ID fuel request w)) ->
        is_runs_create ev = true -> ev = EvRunsCreate tid0 ASSISTANT_ID)
  /\ (forall r, outcome_of (ask ASSISTANT_ID fuel request w) = Ret r ->
        body_field (lit "thread_id") r = Some tid0).
Proof.
  intros H T.
  pose proof (acquire_thread_reuse tid0 w T) as A.
  destruct (ask_flow ASSISTANT_ID fuel request q tid0 w tid0 w _ H A)
    as (t2 & E & F & R & _).
  rewrite E.
  destruct (flow_counts tid0 q ASSISTANT_ID t2 F) as (_ & C & O & RC).
  split; [|split; [|split; [|split]]].
  - unfold count in *. simpl. exact C.
  - apply on_thread_cons_free; [reflexivity|].
    apply on_thread_cons_free; [reflexivity|]. exact O.
  - right. right. destruct F; now left.
  - intros ev [<-|[<-|Hin]]; try discriminate. now apply RC.
  - exact R.
Qed.

(** C3, as the code has it. When the request supplies a thread identifier
    that is truthy (a non-empty string), no thread is created; every call
    that names a thread names the supplied one: the message of a request
    that carries a question is appended to it, the run, if the handling gets
    that far, is created on it; and the success response carries it back as
    [thread_id]. *)
Theorem ask_reuses_supplied_thread (fuel : nat) (request : Request) items
    tid0 (w : W) :
  request_json request = Some (PDict items) ->
  lookup (lit "thread_id") items = Some tid0 ->
  truthy tid0 = true ->
  count is_threads_create (trace_of (ask ASSISTANT_ID fuel request w)) = 0%nat
  /\ on_thread tid0 (trace_of (ask ASSISTANT_ID fuel request w))
  /\ (forall q, asks request q tid0 ->
        In (EvMessagesCreate tid0 (lit "user") q)
           (trace_of (ask ASSISTANT_ID fuel request w)))
  /\ (forall ev, In ev (trace_of (ask ASSISTANT_ID fuel request w)) ->
        is_runs_create ev = true -> ev = EvRunsCreate tid0 ASSISTANT_ID)
  /\ (forall r, outcome_of (ask ASSISTANT_ID fuel request w) = Ret r ->
        status_code r = 200 ->
        body_field (lit "thread_id") r = Some tid0).
Proof.
  intros Hj Ht T.
  destruct (ask_cases ASSISTANT_ID fuel request items w Hj)
    as [(q & H)|(E & R)].
  - rewrite Ht in H.
    destruct (ask_on_supplied_thread fuel request q tid0 w H T)
      as (C & O & I & RC & B).
    split; [exact C|]. split; [exact O|]. split; [|split; [exact RC|]].
    + intros q' H'. destruct (asks_unique request q tid0 q' tid0 H H') as [<- _].
      exact I.
    + intros r Hr _. exact (B r Hr).
  - rewrite E. split; [reflexivity|]. split; [constructor|].
    split; [|split].
    + intros q H. exfalso.
      destruct (ask_flow ASSISTANT_ID fuel request q tid0 w tid0 w _ H
                  (acquire_thread_reuse tid0 w T)) as (t2 & E' & _).
      rewrite E in E'. discriminate.
    + intros ev [].
    + intros r Hr S. rewrite (R r Hr) in S. discriminate.
Qed.

Lemma until_terminal_falsy fuel q tid0 (w : W) :
  truthy tid0 = false ->
  until_terminal ASSISTANT_ID fuel q tid0 w
  = until_terminal ASSISTANT_ID fuel q PNone w.
Proof.
  intros T. unfold until_terminal, start_run. unfold bind, emit.
  rewrite (acquire_thread_create tid0 w T).
  rewrite (acquire_thread_create PNone w eq_refl). reflexivity.
Qed.

Lemma conclude_host request request' q tid run (w : W) :
  client_host request' = client_host request ->
  conclude request' q tid run w = conclude request q tid run w.
Proof.
  intros H. unfold conclude, report_failure. rewrite H. reflexivity.
Qed.

Lemma ask_on_new_thread (fuel : nat) (request : Request) q tid0 (w : W) :
  asks request q tid0 ->
  truthy tid0 = false ->
  (exists rest,
     trace_of (ask ASSISTANT_ID fuel request w)
     = log_question q :: EvThreadsCreate :: rest)
  /\ count is_threads_create (trace_of (ask ASSISTANT_ID fuel request w))
     = 1%nat
  /\ (forall th w1, threads_create w = (inr th, w1) ->
        on_thread (PStr (Thread_id th))
                  (trace_of (ask ASSISTANT_ID fuel request w))
        /\ In (EvMessagesCreate (PStr (Thread_id th)) (lit "user") q)
              (trace_of (ask ASSISTANT_ID fuel request w))
        /\ (forall r, outcome_of (ask ASSISTANT_ID fuel request w) = Ret r ->
              body_field (lit "thread_id") r = Some (PStr (Thread_id th)))).
Proof.
  intros H T.
  pose proof (acquire_thread_create tid0 w T) as A.
  destruct (threads_create w) as [[e|th] w1] eqn:TC.
  - rewrite (ask_not_acquired ASSISTANT_ID fuel request q tid0 w e w1 _ H A).
    split; [eexists; reflexivity|]. split; [reflexivity|].
    intros th w2. discriminate.
  - destruct (ask_flow ASSISTANT_ID fuel request q tid0 w _ w1 _ H A)
      as (t2 & E & F & R & _).
    rewrite E.
    destruct (flow_counts _ q ASSISTANT_ID t2 F) as (_ & C & O & _).
    split; [eexists; reflexivity|]. split.
    { unfold count in *. simpl. now rewrite C. }
    intros th' w2 [= <- <-]. split; [|split].
    + apply on_thread_cons_free; [reflexivity|].
      apply on_thread_cons_free; [reflexivity|].
      apply on_thread_cons_free; [reflexivity|]. exact O.
    + right. right. right. destruct F; now left.
    + exact R.
Qed.

(** C9. When the request supplies as [thread_id] the empty string, or any
    other falsy value, the handling is the one of the same request without
    a [thread_id]. For a request that carries a question the handler calls
    [threads.create] first, once; the identifier of the thread this
    returns, not the supplied value, is the one the message is appended to,
    the one every later call names and the one every response carries. *)
Theorem ask_falsy_thread_creates (fuel : nat) (request : Request) items tid0
    (w : W) :
  request_json request = Some (PDict items) ->
  lookup (lit "thread_id") items = Some tid0 ->
  truthy tid0 = false ->
  (forall request' items',
     request_json request' = Some (PDict items') ->
     client_host request' = client_host request ->
     lookup (lit "question") items' = lookup (lit "question") items ->
     lookup (lit "thread_id") items' = None ->
     ask ASSISTANT_ID fuel request w = ask ASSISTANT_ID fuel request' w)
  /\ (forall q, asks request q tid0 ->
        (exists rest,
           trace_of (ask ASSISTANT_ID fuel request w)
           = log_question q :: EvThreadsCreate :: rest)
        /\ count is_threads_create (trace_of (ask ASSISTANT_ID fuel request w))
           = 1%nat
        /\ (forall th w1, threads_create w = (inr th, w1) ->
              on_thread (PStr (Thread_id th))
                        (trace_of (ask ASSISTANT_ID fuel request w))
              /\ In (EvMessagesCreate (PStr (Thread_id th)) (lit "user") q)
                    (trace_of (ask ASSISTANT_ID fuel request w))
              /\ (forall r,
                    outcome_of (ask ASSISTANT_ID fuel request w) = Ret r ->
                    body_field (lit "thread_id") r
                    = Some (PStr (Thread_id th))))).
Proof.
  intros Hj Ht T. split.
  - intros request' items' Hj' Hh Hq' Ht'.
    destruct (lookup (lit "question") items) as [v|] eqn:Hq.
    + assert (N : (forall s, v <> PStr s) ->
                  ask ASSISTANT_ID fuel request w
                  = ask ASSISTANT_ID fuel request' w).
      { intros Hv.
        rewrite (ask_not_str ASSISTANT_ID fuel request items v w Hj Hq Hv).
        now rewrite (ask_not_str ASSISTANT_ID fuel request' items' v w Hj' Hq'
                       Hv). }
      destruct v as [| | | |s| |]; try (apply N; discriminate).
      destruct (strip s) as [|c q] eqn:Hs.
      * rewrite (ask_no_question ASSISTANT_ID fuel request items w Hj
                   (or_intror (ex_intro _ s (conj Hq Hs)))).
        now rewrite (ask_no_question ASSISTANT_ID fuel request' items' w Hj'
                       (or_intror (ex_intro _ s (conj Hq' Hs)))).
      * assert (H : asks request (c :: q) tid0).
        { exists items, s. rewrite Ht. repeat split; auto. discriminate. }
        assert (H' : asks request' (c :: q) PNone).
        { exists items', s. rewrite Ht'. repeat split; auto. discriminate. }
        rewrite (ask_accepted ASSISTANT_ID fuel request (c :: q) tid0 w H).
        rewrite (ask_accepted ASSISTANT_ID fuel request' (c :: q) PNone w H').
        rewrite (until_terminal_falsy fuel (c :: q) tid0 w T).
        destruct (until_terminal ASSISTANT_ID fuel (c :: q) PNone w)
          as [[[[tid run]|e|] w1] t1]; try reflexivity.
        now rewrite (conclude_host request request' (c :: q) tid run w1 Hh).
    + rewrite (ask_no_question ASSISTANT_ID fuel request items w Hj
                 (or_introl Hq)).
      now rewrite (ask_no_question ASSISTANT_ID fuel request' items' w Hj'
                     (or_introl Hq')).
  - intros q H. exact (ask_on_new_thread fuel request q tid0 w H T).
Qed.

End Threads.

(* ================================================================= *)
(** ** After the polling loop *)

Section Terminal.

Context {W : Type} {client : AssistantClient W} {posthog : AnalyticsSink W}.
Variable ASSISTANT_ID : str.

Lemma acquire_thread_quiet tid0 (w : W) o w1 t1 :
  acquire_thread tid0 w = (o, w1, t1) ->
  count is_capture t1 = 0%nat /\ count is_runs_retrieve t1 = 0%nat.
Proof.
  destruct (truthy tid0) eqn:T.
  - rewrite (acquire_thread_reuse tid0 w T). now intros [= _ _ <-].
  - rewrite (acquire_thread_create tid0 w T).
    destruct (threads_create w) as [[e|th] w']; now intros [= _ _ <-].
Qed.

Lemma start_run_quiet q tid0 (w : W) o w1 t1 :
  start_run ASSISTANT_ID q tid0 w = (o, w1, t1) ->
  count is_capture t1 = 0%nat /\ count is_runs_retrieve t1 = 0%nat.
Proof.
  unfold start_run, bind, emit, call, ret.
  pose proof (acquire_thread_quiet tid0 w) as Q.
  destruct (acquire_thread tid0 w) as [[[tid|e|] w2] t2];
    destruct (Q _ _ _ eq_refl) as (Q1 & Q2); unfold count in *;
    try (intros [= _ _ <-]; simpl; now rewrite Q1, Q2).
  destruct (messages_create tid (lit "user") q w2) as [[e|[]] w3];
    [|destruct (runs_create tid ASSISTANT_ID w3) as [[e|run] w4]];
    intros [= _ _ <-]; simpl; rewrite !filter_app, !length_app, Q1, Q2;
    split; reflexivity.
Qed.

Lemma until_terminal_started fuel q tid0 (w : W) tid run w1 t1 :
  start_run ASSISTANT_ID q tid0 w = (Ret (tid, run), w1, t1) ->
  until_terminal ASSISTANT_ID fuel q tid0 w
  = let '(o, w2, t2) := poll fuel tid run w1 in
    (match o with
     | Ret r => Ret (tid, r)
     | Raise e => Raise e
     | Pending => Pending
     end, w2, t1 ++ t2).
Proof.
  intros S. unfold until_terminal. unfold bind at 1. rewrite S.
  unfold bind, ret.
  destruct (poll fuel tid run w1) as [[[r|e|] w2] t2]; simpl;
    rewrite ?app_nil_r; reflexivity.
Qed.

Lemma poll_quiet fuel tid run (w : W) :
  count is_capture (trace_of (poll fuel tid run w)) = 0%nat.
Proof.
  pose proof (poll_trace fuel tid run w) as PT.
  induction PT as [|ev t [->|(rid & ->)] _ IH]; unfold count in *; simpl; auto.
Qed.

Lemma until_terminal_quiet fuel q tid0 (w : W) o w1 t1 :
  until_terminal ASSISTANT_ID fuel q tid0 w = (o, w1, t1) ->
  count is_capture t1 = 0%nat.
Proof.
  unfold until_terminal. unfold bind at 1.
  pose proof (start_run_quiet q tid0 w) as Q.
  destruct (start_run ASSISTANT_ID q tid0 w) as [[[[tid run]|e|] w2] t2];
    destruct (Q _ _ _ eq_refl) as (Q1 & _);
    try (now intros [= _ _ <-]).
  unfold bind, ret. pose proof (poll_quiet fuel tid run w2) as P.
  destruct (poll fuel tid run w2) as [[[r|e|] w3] t3];
    unfold trace_of in P; simpl in P; intros [= _ _ <-];
    rewrite ?app_nil_r, count_app, Q1, P; reflexivity.
Qed.

Lemma until_terminal_ret fuel q tid0 (w : W) tid run w1 t1 :
  until_terminal ASSISTANT_ID fuel q tid0 w = (Ret (tid, run), w1, t1) ->
  keeps_polling run = false.
Proof.
  unfold until_terminal. unfold bind at 1.
  destruct (start_run ASSISTANT_ID q tid0 w) as [[[[tid' run']|e|] w2] t2];
    try discriminate.
  unfold bind, ret.
  destruct (poll fuel tid' run' w2) as [[[r|e|] w3] t3] eqn:P;
    try discriminate.
  intros [= _ <- _ _]. exact (poll_ret_terminal fuel tid' run' w2 r w3 t3 P).
Qed.

Lemma ask_reaches fuel request q tid0 (w0 : W) tid run0 w t0 n r w1 :
  asks request q tid0 ->
  start_run ASSISTANT_ID q tid0 w0 = (Ret (tid, run0), w, t0) ->
  reaches n tid run0 w r w1 ->
  ~ polls_on (Run_status r) ->
  (n <= fuel)%nat ->
  exists tp,
    count is_runs_retrieve tp = n /\ count is_capture tp = 0%nat
    /\ ask ASSISTANT_ID fuel request w0
       = let '(o, w2, t2) := conclude request q tid r w1 in
         (o, w2, t0 ++ tp ++ t2).
Proof.
  intros H St Re N Hf.
  destruct (poll_first_terminal n tid run0 w r w1
              (reaches_first_terminal n tid run0 w r w1 Re N) fuel Hf)
    as (tp & P & C).
  exists tp. split; [exact C|]. split.
  { pose proof (poll_quiet fuel tid run0 w) as Q. now rewrite P in Q. }
  rewrite (ask_accepted ASSISTANT_ID fuel request q tid0 w0 H).
  rewrite (until_terminal_started fuel q tid0 w0 tid run0 w t0 St), P.
  cbv beta iota.
  destruct (conclude request q tid r w1) as [[o w2] t2].
  now rewrite app_assoc.
Qed.

Lemma ask_route_ret fuel request (w : W) r w' t :
  ask ASSISTANT_ID fuel request w = (Ret r, w', t) ->
  json_compliant (content r) = true ->
  ask_route ASSISTANT_ID fuel request w = (Ret r, w', t).
Proof.
  intros E J. unfold ask_route, bind. rewrite E. unfold rendered.
  rewrite J. simpl. now rewrite app_nil_r.
Qed.



(** C6. With a run still in the polling set when created and a client
    whose [runs.retrieve] returns queued, queued, then completed, the
    handling fetches the status exactly 3 times, then lists the messages and
    returns the answer taken from that list. *)
Theorem ask_queued_queued_completed (fuel : nat) (request : Request) q tid0
    (w0 : W) tid run0 w t0 r1 w1 r2 w2 r3 w3 data w4 answer :
  asks request q tid0 ->
  start_run ASSISTANT_ID q tid0 w0 = (Ret (tid, run0), w, t0) ->
  keeps_polling run0 = true ->
  runs_retrieve tid (Run_id run0) w = (inr r1, w1) ->
  Run_status r1 = lit "queued" ->
  runs_retrieve tid (Run_id r1) w1 = (inr r2, w2) ->
  Run_status r2 = lit "queued" ->
  runs_retrieve tid (Run_id r2) w2 = (inr r3, w3) ->
  Run_status r3 = lit "completed" ->
  messages_list tid w3 = (inr data, w4) ->
  first_text data = inr answer ->
  (3 <= fuel)%nat ->
  exists t,
    ask ASSISTANT_ID fuel request w0
    = (Ret (mkResponse 200 (PDict [(lit "answer", PStr answer);
                                   (lit "thread_id", tid)])), w4, t)
    /\ count is_runs_retrieve t = 3%nat
    /\ exists log_reply,
         t = t0 ++ [EvSleep 1; EvRunsRetrieve tid (Run_id run0);
                    EvSleep 1; EvRunsRetrieve tid (Run_id r1);
                    EvSleep 1; EvRunsRetrieve tid (Run_id r2);
                    EvMessagesList tid; EvLog INFO log_reply].
Proof.
  intros H St K0 R1 S1 R2 S2 R3 S3 L F Hf.
  assert (K1 : keeps_polling r1 = true)
    by (unfold keeps_polling; rewrite S1; reflexivity).
  assert (K2 : keeps_polling r2 = true)
    by (unfold keeps_polling; rewrite S2; reflexivity).
  assert (K3 : keeps_polling r3 = false)
    by (unfold keeps_polling; rewrite S3; reflexivity).
  destruct fuel as [|[|[|fuel]]]; try lia.
  assert (P : poll (S (S (S fuel))) tid run0 w
              = (Ret r3, w3,
                 [EvSleep 1; EvRunsRetrieve tid (Run_id run0);
                  EvSleep 1; EvRunsRetrieve tid (Run_id r1);
                  EvSleep 1; EvRunsRetrieve tid (Run_id r2)])).
  { rewrite (poll_step _ tid run0 w K0), R1.
    rewrite (poll_step _ tid r1 w1 K1), R2.
    rewrite (poll_step _ tid r2 w2 K2), R3.
    rewrite (poll_done _ tid r3 w3 K3). reflexivity. }
  destruct (start_run_quiet q tid0 w0 _ _ _ St) as (_ & Q).
  eexists. split; [|split].
  - rewrite (ask_accepted ASSISTANT_ID _ request q tid0 w0 H).
    rewrite (until_terminal_started _ q tid0 w0 tid run0 w t0 St), P.
    rewrite (conclude_completed request q tid r3 w3 S3), L, F. reflexivity.
  - rewrite !count_app, Q. reflexivity.
  - eexists. rewrite <- app_assoc. reflexivity.
Qed.

(** C7. The loop goes on exactly while the status is queued or
    in_progress and no number of iterations is too many: while all the
    responses so far are in the polling set it is still fetching, however
    many iterations were allowed. It is left, for some number of
    iterations, if and only if some response, the run as created or one
    retrieved, has a status outside the set; the run it is left with is the
    first such response, after as many fetches as that response's number,
    and what follows depends on the status of that run alone. *)
Theorem poll_terminates_iff (tid : value) (run : Run) (w : W) :
  ((exists fuel r w' t, poll fuel tid run w = (Ret r, w', t))
   <-> (exists n r w', response n tid run w = Some (r, w')
                       /\ keeps_polling r = false))
  /\ (forall n r w', first_terminal n tid run w r w' ->
        forall fuel, (n <= fuel)%nat ->
        exists t, poll fuel tid run w = (Ret r, w', t)
                  /\ count is_runs_retrieve t = n)
  /\ (forall fuel r w' t, poll fuel tid run w = (Ret r, w', t) ->
        exists n, (n <= fuel)%nat /\ first_terminal n tid run w r w'
                  /\ count is_runs_retrieve t = n)
  /\ (forall fuel,
        (forall m, (m <= fuel)%nat ->
           exists r' w'', response m tid run w = Some (r', w'')
                          /\ keeps_polling r' = true) ->
        exists w' t, poll fuel tid run w = (Pending, w', t)
                     /\ count is_runs_retrieve t = fuel)
  /\ (forall request q r,
        conclude request q tid r
        = if str_eqb (Run_status r) (lit "completed")
          then retrieve_answer tid
          else report_failure request q tid r).
Proof.
  split; [split|split; [|split; [|split]]].
  - intros (fuel & r & w' & t & P).
    destruct (poll_ret_first_terminal fuel tid run w r w' t P)
      as (n & _ & (Hr & Hk & _) & _).
    now exists n, r, w'.
  - intros (n & r & w' & Hr & Hk).
    destruct (response_first_terminal n tid run w r w' Hr Hk)
      as (m & r0 & w0 & _ & F).
    destruct (poll_first_terminal m tid run w r0 w0 F m (le_n m)) as (t & P & _).
    now exists m, r0, w0, t.
  - intros n r w'. apply poll_first_terminal.
  - intros fuel r w' t. apply poll_ret_first_terminal.
  - intros fuel. apply poll_still_polling.
  - reflexivity.
Qed.

End Terminal.

(* ================================================================= *)
(** ** Admission *)

Lemma filter_length_le {A : Type} (p p' : A -> bool) (l : list A) :
  (forall x, p x = true -> p' x = true) ->
  (List.length (filter p l) <= List.length (filter p' l))%nat.
Proof.
  intros H. induction l as [|x l IH]; simpl; [lia|].
  destruct (p x) eqn:P.
  - rewrite (H x P). simpl. lia.
  - destruct (p' x); simpl; lia.
Qed.

(** What is in an interval that ends less than a window after [now] is
    recent at [now]. *)
Lemma hits_in_recent (key : str) (a d now : Z) (st : RateLimiter.state) :
  now < a + d ->
  (hits_in key a (a + d) st
   <= List.length (RateLimiter.recent key (now - d) st))%nat.
Proof.
  intros H. apply filter_length_le. intros [k t]; simpl.
  rewrite !andb_true_iff. intros [[-> Ha] _]. split; [reflexivity|].
  apply Z.leb_le in Ha. apply Z.ltb_lt. lia.
Qed.

Lemma admit_within_limits windows key now st ok st' :
  RateLimiter.admission windows key now st = (ok, st') ->
  within_limits windows st -> within_limits windows st'.
Proof.
  unfold RateLimiter.admission.
  destruct (forallb (RateLimiter.has_quota key now st) windows) eqn:Q;
    intros [= <- <-]; [|auto].
  intros I win Hin key' a. rewrite forallb_forall in Q.
  specialize (Q win Hin). unfold RateLimiter.has_quota in Q.
  apply Nat.ltb_lt in Q. specialize (I win Hin key' a).
  unfold hits_in in *. simpl.
  destruct (str_eqb key key' && (a <=? now)
            && (now <? a + RateLimiter.duration win)) eqn:E; [|exact I].
  simpl. apply andb_true_iff in E as [E E3].
  apply andb_true_iff in E as [E1 E2].
  apply str_eqb_eq in E1. subst key'. apply Z.ltb_lt in E3.
  pose proof (hits_in_recent key a (RateLimiter.duration win) now st E3) as R.
  unfold hits_in in R. lia.
Qed.

Lemma admit_denied windows key now st :
  (exists win, In win windows
     /\ (RateLimiter.max_count win
         <= List.length
              (RateLimiter.recent key (now - RateLimiter.duration win) st))%nat)
  <-> RateLimiter.admission windows key now st = (false, st).
Proof.
  unfold RateLimiter.admission.
  destruct (forallb (RateLimiter.has_quota key now st) windows) eqn:Q.
  - split; [|discriminate]. intros (win & Hin & Hle).
    rewrite forallb_forall in Q. specialize (Q win Hin).
    unfold RateLimiter.has_quota in Q. apply Nat.ltb_lt in Q. lia.
  - split; [reflexivity|]. intros _.
    apply not_true_iff_false in Q. rewrite forallb_forall in Q.
    destruct (existsb (fun win => negb (RateLimiter.has_quota key now st win))
                      windows) eqn:E.
    + apply existsb_exists in E as (win & Hin & Hn). exists win.
      split; [exact Hin|]. apply negb_true_iff in Hn.
      unfold RateLimiter.has_quota in Hn. apply Nat.ltb_ge in Hn. exact Hn.
    + exfalso. apply Q. intros win Hin.
      destruct (RateLimiter.has_quota key now st win) eqn:Hq; [reflexivity|].
      assert (existsb (fun win => negb (RateLimiter.has_quota key now st win))
                      windows = true).
      { apply existsb_exists. exists win. now rewrite Hq. }
      congruence.
Qed.

Section Admission.

Context {W : Type} {client : AssistantClient W} {posthog : AnalyticsSink W}.
Variable ASSISTANT_ID : str.

Lemma post_ask_served fuel now request limiter (w : W) s limiter' w' :
  post_ask ASSISTANT_ID fuel now request limiter w = (s, limiter', w') ->
  at_time s = now /\ from_key s = get_remote_address request
  /\ RateLimiter.admission ask_limits (get_remote_address request) now limiter
     = (admitted s, limiter')
  /\ (admitted s = false ->
      result s = Ret custom_rate_limit_handler /\ calls s = [] /\ w' = w).
Proof.
  unfold post_ask.
  destruct (RateLimiter.admission ask_limits (get_remote_address request) now
                              limiter) as [[|] l'].
  - destruct (ask_route ASSISTANT_ID fuel request w) as [[o w1] t].
    intros [= <- <- <-]. simpl. repeat split; discriminate.
  - intros [= <- <- <-]. simpl. repeat split.
Qed.

Lemma serve_within_limits fuel requests limiter (w : W) ss limiter' w' :
  serve ASSISTANT_ID fuel requests limiter w = (ss, limiter', w') ->
  within_limits ask_limits limiter ->
  within_limits ask_limits limiter'
  /\ (forall key a b,
        hits_in key a b limiter'
        = (admitted_in key a b ss + hits_in key a b limiter)%nat)
  /\ (forall s, In s ss -> admitted s = false ->
        result s = Ret custom_rate_limit_handler /\ calls s = []).
Proof.
  revert limiter w ss limiter' w'.
  induction requests as [|[now request] rest IH];
    intros limiter w ss limiter' w'; simpl.
  - intros [= <- <- <-] I. split; [exact I|]. split; [reflexivity|].
    intros s [].
  - destruct (post_ask ASSISTANT_ID fuel now request limiter w)
      as [[s l1] w1] eqn:P.
    destruct (serve ASSISTANT_ID fuel rest l1 w1) as [[ss' l2] w2] eqn:S.
    intros [= <- <- <-] I.
    destruct (post_ask_served fuel now request limiter w s l1 w1 P)
      as (Ht & Hk & Ha & Hd).
    pose proof (admit_within_limits _ _ _ _ _ _ Ha I) as I1.
    destruct (IH l1 w1 ss' l2 w2 S I1) as (I2 & Hh & Hs).
    split; [exact I2|]. split.
    + intros key a b. rewrite Hh. unfold admitted_in, hits_in. simpl.
      unfold RateLimiter.admission in Ha.
      destruct (forallb _ ask_limits); injection Ha as <- <-;
        simpl; [|reflexivity].
      rewrite Ht, Hk.
      destruct (str_eqb (get_remote_address request) key && (a <=? now)
                && (now <? b)); simpl; lia.
    + intros s' [<-|Hin] Hden; [|now apply Hs].
      destruct (Hd Hden) as (R & C & _). now split.
Qed.

(** C8. Whatever requests arrive, for every client key and every interval
    of 60 seconds at most 10 of its requests are admitted, and for every
    interval of 3600 seconds at most 60. A request that finds 10 admissions
    of its key in the last 60 seconds, or 60 in the last 3600, is denied, and
    only such a request; a denied request is answered 429 with a JSON body
    that has an [error] field, and [ask] is not run for it: nothing is
    called, the world and the limiter are as before. *)
Theorem post_ask_rate_limited (fuel : nat) (requests : list (Z * Request))
    (w : W) :
  (forall key a,
     (admitted_in key a (a + 60)
        (fst (fst (serve ASSISTANT_ID fuel requests [] w))) <= 10)%nat
     /\ (admitted_in key a (a + 3600)
           (fst (fst (serve ASSISTANT_ID fuel requests [] w))) <= 60)%nat)
  /\ (forall s, In s (fst (fst (serve ASSISTANT_ID fuel requests [] w))) ->
        admitted s = false ->
        result s = Ret custom_rate_limit_handler /\ calls s = [])
  /\ status_code custom_rate_limit_handler = 429
  /\ body_field (lit "error") custom_rate_limit_handler
     = Some (PStr rate_limit_message)
  /\ (forall now request limiter (w' : W),
        ((10 <= List.length
                 (RateLimiter.recent (get_remote_address request) (now - 60)
                                     limiter))%nat
         \/ (60 <= List.length
                     (RateLimiter.recent (get_remote_address request)
                                         (now - 3600) limiter))%nat)
        <-> post_ask ASSISTANT_ID fuel now request limiter w'
            = (mkServed now (get_remote_address request) false
                        (Ret custom_rate_limit_handler) [],
               limiter, w')).
Proof.
  destruct (serve ASSISTANT_ID fuel requests [] w) as [[ss l] w1] eqn:S.
  assert (I0 : within_limits ask_limits []).
  { intros win _ key a. unfold hits_in. simpl. lia. }
  destruct (serve_within_limits fuel requests [] w ss l w1 S I0)
    as (I & Hh & Hd).
  simpl. split; [|split; [exact Hd|split; [reflexivity|split; [reflexivity|]]]].
  - intros key a. split.
    + specialize (I (RateLimiter.mkWindow 10 60) (or_introl eq_refl) key a).
      rewrite Hh in I. simpl in I. lia.
    + specialize (I (RateLimiter.mkWindow 60 3600)
                    (or_intror (or_introl eq_refl)) key a).
      rewrite Hh in I. simpl in I. lia.
  - intros now request limiter w'. unfold post_ask.
    pose proof (admit_denied ask_limits (get_remote_address request) now
                             limiter) as D.
    split.
    + intros Hq. destruct D as [D _]. rewrite D; [reflexivity|].
      destruct Hq as [Hq|Hq];
        [exists (RateLimiter.mkWindow 10 60)
        |exists (RateLimiter.mkWindow 60 3600)];
        (split; [simpl; auto | exact Hq]).
    + intros E. destruct D as [_ D].
      destruct (RateLimiter.admission ask_limits (get_remote_address request) now
                                  limiter) as [[|] l'] eqn:A.
      * destruct (ask_route ASSISTANT_ID fuel request w') as [[o w2] t].
        discriminate.
      * injection E as <-.
        destruct (D eq_refl) as (win & [<-|[<-|[]]] & Hle); simpl in Hle; auto.
Qed.

End Admission.

(* ================================================================= *)
(** ** The properties on the test double *)

Lemma asks_hello : asks hello (lit "hi") PNone.
Proof.
  exists [(lit "question", PStr (lit " hi "))], (lit " hi ").
  repeat split; try reflexivity. discriminate.
Defined.

Lemma asks_hello_again : asks hello_again (lit "hi") (PStr (lit "thread_abc")).
Proof.
  exists [(lit "question", PStr (lit "hi"));
          (lit "thread_id", PStr (lit "thread_abc"))], (lit "hi").
  repeat split; try reflexivity. discriminate.
Defined.

Lemma asks_hello_empty_thread : asks hello_empty_thread (lit "hi") (PStr []).
Proof.
  exists [(lit "question", PStr (lit "hi")); (lit "thread_id", PStr [])],
         (lit "hi").
  repeat split; try reflexivity. discriminate.
Defined.

Lemma ask_blank_question_400_witness :
  request_json blank = Some (PDict [(lit "question", PStr (lit "   "))])
  /\ ask (lit "asst_1") 3 blank happy
     = (Ret (JSONResponse
               [(lit "error", PStr (lit "No question provided."))] 400),
        happy, []).
Proof.
  split; [reflexivity|].
  apply (ask_blank_question_400 (lit "asst_1") 3 blank
           [(lit "question", PStr (lit "   "))] happy); [reflexivity|].
  right. exists (lit "   "). split; reflexivity.
Defined.

Lemma ask_question_not_a_string_witness :
  lookup (lit "question") [(lit "question", PNone)] = Some PNone
  /\ ask (lit "asst_1") 3 null_question happy
     = (Raise (AttributeError (lit "NoneType") (lit "strip")), happy, [])
  /\ forall r, outcome_of (ask (lit "asst_1") 3 null_question happy) <> Ret r.
Proof.
  split; [reflexivity|].
  apply (ask_question_not_a_string (lit "asst_1") 3 null_question
           [(lit "question", PNone)] PNone happy);
    [reflexivity | reflexivity | discriminate].
Defined.

Lemma ask_creates_one_run_witness :
  asks hello (lit "hi") PNone
  /\ count is_runs_create (trace_of (ask (lit "asst_1") 5 hello happy))
     = 1%nat.
Proof.
  split; [exact asks_hello|].
  apply (proj1 (proj2 (ask_creates_one_run (lit "asst_1") 5 hello (lit "hi")
                         PNone happy asks_hello))
           (PStr (lit "thread_new")) happy
           [EvThreadsCreate; log_created (PStr (lit "thread_new"))] tt happy);
    reflexivity.
Defined.

(** C2 as stated fails: the request is accepted, the upstream refuses the
    creation of the thread, the exception leaves the handler and no run
    was created. *)
Lemma ask_no_run_after_thread_outage :
  asks hello (lit "hi") PNone
  /\ ask (lit "asst_1") 5 hello thread_outage
     = (Raise (LibraryError (lit "Connection error.")), thread_outage,
        [log_question (lit "hi"); EvThreadsCreate])
  /\ count is_runs_create (trace_of (ask (lit "asst_1") 5 hello thread_outage))
     = 0%nat.
Proof. split; [exact asks_hello|]. split; reflexivity. Qed.

Lemma ask_reuses_supplied_thread_witness :
  lookup (lit "thread_id")
         [(lit "question", PStr (lit "hi"));
          (lit "thread_id", PStr (lit "thread_abc"))]
  = Some (PStr (lit "thread_abc"))
  /\ truthy (PStr (lit "thread_abc")) = true
  /\ count is_threads_create
           (trace_of (ask (lit "asst_1") 5 hello_again happy)) = 0%nat
  /\ on_thread (PStr (lit "thread_abc"))
               (trace_of (ask (lit "asst_1") 5 hello_again happy)).
Proof.
  split; [reflexivity|]. split; [reflexivity|].
  destruct (ask_reuses_supplied_thread (lit "asst_1") 5 hello_again
              [(lit "question", PStr (lit "hi"));
               (lit "thread_id", PStr (lit "thread_abc"))]
              (PStr (lit "thread_abc")) happy eq_refl eq_refl eq_refl)
    as (C & O & _).
  split; [exact C | exact O].
Defined.

(** C3 as stated fails: the request supplies the thread identifier "", a
    thread is created all the same, and the identifier of the new thread is
    the one used and returned. *)
Lemma ask_empty_thread_id_creates_thread :
  request_json hello_empty_thread
  = Some (PDict [(lit "question", PStr (lit "hi"));
                 (lit "thread_id", PStr [])])
  /\ count is_threads_create
           (trace_of (ask (lit "asst_1") 5 hello_empty_thread happy)) = 1%nat
  /\ In (EvMessagesCreate (PStr (lit "thread_new")) (lit "user") (lit "hi"))
        (trace_of (ask (lit "asst_1") 5 hello_empty_thread happy))
  /\ outcome_of (ask (lit "asst_1") 5 hello_empty_thread happy)
     = Ret (mkResponse 200
              (PDict [(lit "answer", PStr (lit "Hello!"));
                      (lit "thread_id", PStr (lit "thread_new"))])).
Proof.
  split; [reflexivity|]. split; [reflexivity|]. split; [|reflexivity].
  vm_compute. auto 10.
Qed.

Lemma ask_falsy_thread_creates_witness :
  lookup (lit "thread_id")
         [(lit "question", PStr (lit "hi")); (lit "thread_id", PStr [])]
  = Some (PStr [])
  /\ truthy (PStr []) = false
  /\ ask (lit "asst_1") 5 hello_empty_thread happy
     = ask (lit "asst_1") 5
           (json_request [(lit "question", PStr (lit "hi"))]) happy
  /\ count is_threads_create
           (trace_of (ask (lit "asst_1") 5 hello_empty_thread happy)) = 1%nat.
Proof.
  split; [reflexivity|]. split; [reflexivity|].
  destruct (ask_falsy_thread_creates (lit "asst_1") 5 hello_empty_thread
              [(lit "question", PStr (lit "hi")); (lit "thread_id", PStr [])]
              (PStr []) happy eq_refl eq_refl eq_refl) as (Same & New).
  split.
  - apply (Same (json_request [(lit "question", PStr (lit "hi"))])
                [(lit "question", PStr (lit "hi"))]); reflexivity.
  - exact (proj1 (proj2 (New (lit "hi") asks_hello_empty_thread))).
Defined.

Lemma happy_reaches :
  reaches 3 (PStr (lit "thread_new")) queued_run happy completed_run
          (snd (double_retrieve (snd (double_retrieve
                                        (snd (double_retrieve happy)))))).
Proof.
  split; [reflexivity|].
  intros [|[|[|m]]] r' w'' Hm; simpl;
    try (intros [= <- <-]; left; reflexivity).
  exfalso. lia.
Qed.



(** The text returned is that of the newest message listed, whatever its
    role. On [interleaved] a user message is the newest when the messages
    are listed: its text is returned and logged as the reply of the
    assistant, while the most recent assistant message says something
    else. *)
Lemma ask_answer_ignores_role :
  asks hello (lit "hi") PNone
  /\ outcome_of (until_terminal (lit "asst_1") 5 (lit "hi") PNone interleaved)
     = Ret (PStr (lit "thread_new"), completed_run)
  /\ outcome_of (ask_route (lit "asst_1") 5 hello interleaved)
     = Ret (mkResponse 200
              (PDict [(lit "answer", PStr (lit "And another thing"));
                      (lit "thread_id", PStr (lit "thread_new"))]))
  /\ most_recent_assistant_text
       [text_message "user" "And another thing";
        text_message "assistant" "Hello!"; text_message "user" "hi"]
     = Some (lit "Hello!").
Proof. split; [exact asks_hello|]. repeat split. Qed.

Lemma run_fails_reaches tid :
  reaches 1 tid queued_run run_fails failed_run
          (snd (double_retrieve run_fails)).
Proof.
  split; [reflexivity|].
  intros [|m] r' w'' Hm; simpl;
    try (intros [= <- <-]; left; reflexivity).
  exfalso. lia.
Qed.



Lemma ask_queued_queued_completed_witness :
  asks hello (lit "hi") PNone
  /\ keeps_polling queued_run = true
  /\ retrieve_script happy
     = [inr queued_run; inr queued_run; inr completed_run]
  /\ (3 <= 5)%nat
  /\ count is_runs_retrieve (trace_of (ask (lit "asst_1") 5 hello happy))
     = 3%nat
  /\ outcome_of (ask (lit "asst_1") 5 hello happy)
     = Ret (mkResponse 200
              (PDict [(lit "answer", PStr (lit "Hello!"));
                      (lit "thread_id", PStr (lit "thread_new"))])).
Proof.
  assert (L : (3 <= 5)%nat) by (repeat constructor).
  split; [exact asks_hello|]. split; [reflexivity|]. split; [reflexivity|].
  split; [exact L|].
  pose (w1 := snd (double_retrieve happy)).
  pose (w2 := snd (double_retrieve w1)).
  pose (w3 := snd (double_retrieve w2)).
  pose (t0 := trace_of (start_run (lit "asst_1") (lit "hi") PNone happy)).
  assert (St : start_run (lit "asst_1") (lit "hi") PNone happy
               = (Ret (PStr (lit "thread_new"), queued_run), happy, t0))
    by (vm_compute; reflexivity).
  assert (R1 : runs_retrieve (PStr (lit "thread_new")) (Run_id queued_run)
                             happy = (inr queued_run, w1))
    by (vm_compute; reflexivity).
  assert (R2 : runs_retrieve (PStr (lit "thread_new")) (Run_id queued_run)
                             w1 = (inr queued_run, w2))
    by (vm_compute; reflexivity).
  assert (R3 : runs_retrieve (PStr (lit "thread_new")) (Run_id queued_run)
                             w2 = (inr completed_run, w3))
    by (vm_compute; reflexivity).
  assert (Li : messages_list (PStr (lit "thread_new")) w3
               = (inr [text_message "assistant" "Hello!";
                       text_message "user" "hi"], w3))
    by (vm_compute; reflexivity).
  destruct (ask_queued_queued_completed (lit "asst_1") 5 hello (lit "hi") PNone
              happy (PStr (lit "thread_new")) queued_run happy t0
              queued_run w1 queued_run w2 completed_run w3
              [text_message "assistant" "Hello!"; text_message "user" "hi"]
              w3 (lit "Hello!")
              asks_hello St eq_refl R1 eq_refl R2 eq_refl R3 eq_refl Li
              eq_refl L)
    as (t & E & C & _).
  rewrite E. split; [exact C | reflexivity].
Defined.

Lemma poll_terminates_iff_witness :
  exists t,
    poll 7 (PStr (lit "thread_new")) queued_run happy
    = (Ret completed_run, snd (double_retrieve
                                 (snd (double_retrieve
                                         (snd (double_retrieve happy))))), t)
    /\ count is_runs_retrieve t = 3%nat.
Proof.
  apply (proj1 (proj2 (poll_terminates_iff (PStr (lit "thread_new"))
                         queued_run happy)) 3%nat).
  - split; [reflexivity|]. split; [reflexivity|].
    intros [|[|[|m]]] r' w'' Hm; simpl; try (intros [= <- <-]; reflexivity).
    exfalso. do 3 apply PeanoNat.lt_S_n in Hm. inversion Hm.
  - repeat constructor.
Defined.

(** On [stuck] the loop is never left, however many iterations it is
    given. *)
Lemma poll_stuck (fuel : nat) tid :
  exists t, poll fuel tid queued_run stuck = (Pending, stuck, t)
            /\ count is_runs_retrieve t = fuel.
Proof.
  induction fuel as [|fuel (t & P & C)].
  - exists []. split; reflexivity.
  - rewrite (poll_step fuel tid queued_run stuck eq_refl). simpl.
    rewrite P. eexists. split; [reflexivity|].
    unfold count in *. simpl. now rewrite C.
Qed.

(* ================================================================= *)
(** ** Stripping, splitting and joining *)

Lemma lstrip_app (s : str) :
  exists l, s = l ++ lstrip s /\ forallb is_space l = true.
Proof.
  induction s as [|c s (l & E & Hl)]; [now exists []|].
  simpl. destruct (is_space c) eqn:Hc.
  - exists (c :: l). simpl. rewrite Hc, Hl. split; [now f_equal | reflexivity].
  - now exists [].
Qed.

Lemma lstrip_head (s : str) c q : lstrip s = c :: q -> is_space c = false.
Proof.
  induction s as [|d s IH]; simpl; [discriminate|].
  destruct (is_space d) eqn:Hd; [exact IH|]. now intros [= <- _].
Qed.

Lemma forallb_rev {A : Type} (p : A -> bool) (l : list A) :
  forallb p l = true -> forallb p (rev l) = true.
Proof.
  rewrite !forallb_forall. intros H x Hx. apply H. now apply in_rev.
Qed.

Lemma rstrip_app (s : str) :
  exists r, s = rstrip s ++ r /\ forallb is_space r = true.
Proof.
  destruct (lstrip_app (rev s)) as (l & E & Hl).
  exists (rev l). split; [|now apply forallb_rev].
  unfold rstrip. rewrite <- rev_app_distr, <- E. now rewrite rev_involutive.
Qed.

Lemma rstrip_last (s : str) c q : rstrip s = q ++ [c] -> is_space c = false.
Proof.
  unfold rstrip. intros E.
  apply (lstrip_head (rev s) c (rev q)).
  rewrite <- (rev_involutive (lstrip (rev s))), E, rev_app_distr. reflexivity.
Qed.

(** What [strip] returns is the string without the whitespace before and
    after it, and neither begins nor ends with whitespace. *)
Lemma strip_trims (s : str) : trims s (strip s).
Proof.
  destruct (lstrip_app s) as (l & El & Hl).
  destruct (rstrip_app (lstrip s)) as (r & Er & Hr).
  exists l, r. fold (strip s) in Er.
  split; [now rewrite <- Er|]. split; [exact Hl|]. split; [exact Hr|]. split.
  - intros c q' E. rewrite E in Er. exact (lstrip_head s c (q' ++ r) Er).
  - intros c q' E. exact (rstrip_last (lstrip s) c q' E).
Qed.

(** A string that neither begins nor ends with whitespace is left as it
    is. *)
Lemma strip_fixed (q : str) :
  (forall c q', q = c :: q' -> is_space c = false) ->
  (forall c q', q = q' ++ [c] -> is_space c = false) ->
  strip q = q.
Proof.
  intros Hh Hl. unfold strip.
  assert (E : lstrip q = q).
  { destruct q as [|c q']; [reflexivity|]. simpl.
    now rewrite (Hh c q' eq_refl). }
  rewrite E. unfold rstrip.
  destruct (rev q) as [|c x] eqn:R.
  - simpl. rewrite <- (rev_involutive q), R. reflexivity.
  - simpl. rewrite (Hl c (rev x)).
    + rewrite <- R. apply rev_involutive.
    + rewrite <- (rev_involutive q), R. reflexivity.
Qed.

Lemma strip_idempotent (s : str) : strip (strip s) = strip s.
Proof.
  destruct (strip_trims s) as (l & r & _ & _ & _ & Hh & Hl).
  now apply strip_fixed.
Qed.

Lemma trims_in (s q : str) c : trims s q -> In c q -> In c s.
Proof.
  intros (l & r & -> & _) H. apply in_or_app. right.
  apply in_or_app. now left.
Qed.

Lemma split_not_nil (sep : N) (s : str) : split sep s <> [].
Proof.
  destruct s as [|c s]; simpl; [discriminate|].
  destruct (c =? sep)%N; [discriminate|].
  destruct (split sep s); discriminate.
Qed.

Lemma join_cons (sep : N) (x : str) (l : list str) :
  l <> [] -> join sep (x :: l) = x ++ sep :: join sep l.
Proof. destruct l; [contradiction | reflexivity]. Qed.

Lemma join_cons_head (sep c : N) (x : str) (l : list str) :
  join sep ((c :: x) :: l) = c :: join sep (x :: l).
Proof. destruct l; reflexivity. Qed.

(** Joining the pieces gives the string back. *)
Lemma join_split (sep : N) (s : str) : join sep (split sep s) = s.
Proof.
  induction s as [|c s IH]; [reflexivity|]. cbn [split].
  destruct (c =? sep)%N eqn:E.
  - apply N.eqb_eq in E. subst c.
    transitivity ([] ++ sep :: join sep (split sep s));
      [apply join_cons, split_not_nil | now rewrite IH].
  - pose proof (split_not_nil sep s) as N.
    destruct (split sep s) as [|piece pieces]; [contradiction|].
    now rewrite join_cons_head, IH.
Qed.

Lemma split_free (sep : N) (x : str) : ~ In sep x -> split sep x = [x].
Proof.
  induction x as [|c x IH]; [reflexivity|]. intros H. simpl.
  destruct (c =? sep)%N eqn:E.
  - apply N.eqb_eq in E. subst c. exfalso. apply H. now left.
  - rewrite IH; [reflexivity|]. intros Hin. apply H. now right.
Qed.

Lemma split_app (sep : N) (x y : str) :
  ~ In sep x -> split sep (x ++ sep :: y) = x :: split sep y.
Proof.
  induction x as [|c x IH]; intros H; simpl.
  - now rewrite N.eqb_refl.
  - destruct (c =? sep)%N eqn:E.
    + apply N.eqb_eq in E. subst c. exfalso. apply H. now left.
    + rewrite IH; [reflexivity|]. intros Hin. apply H. now right.
Qed.

(** Splitting what was joined gives the pieces back, when none holds the
    separator. *)
Lemma split_join (sep : N) (l : list str) :
  Forall (fun x => ~ In sep x) l -> l <> [] -> split sep (join sep l) = l.
Proof.
  induction l as [|x l IH]; [contradiction|]. intros F _.
  inversion F as [|? ? Hx Hl]; subst.
  destruct l as [|y l]; [now apply split_free|].
  rewrite join_cons by discriminate.
  rewrite (split_app sep x _ Hx), IH; [reflexivity | exact Hl | discriminate].
Qed.

Lemma split_pieces (sep : N) (s : str) :
  Forall (fun x => ~ In sep x) (split sep s).
Proof.
  induction s as [|c s IH]; simpl; [repeat constructor; intros []|].
  destruct (c =? sep)%N eqn:E.
  - constructor; [intros [] | exact IH].
  - destruct (split sep s) as [|piece pieces];
      [repeat constructor; intros [->|[]]; now rewrite N.eqb_refl in E|].
    inversion IH as [|? ? Hp Hps]; subst. constructor; [|exact Hps].
    intros [->|Hin]; [now rewrite N.eqb_refl in E | now apply Hp].
Qed.

Lemma split_length (sep : N) (s : str) :
  List.length (split sep s) = S (count_occ N.eq_dec s sep).
Proof.
  induction s as [|c s IH]; [reflexivity|]. simpl.
  destruct (N.eq_dec c sep) as [->|Hne].
  - rewrite N.eqb_refl. simpl. now rewrite IH.
  - apply N.eqb_neq in Hne. rewrite Hne.
    destruct (split sep s) as [|piece pieces]; simpl in *; [discriminate|].
    exact IH.
Qed.

(* ================================================================= *)
(** ** Start-up *)

(** X12. The allowed origins are never an empty list: there is one more
    than the commas of the value, none holds a comma, none begins or ends
    with whitespace; each is a piece of the value between two commas,
    stripped. Without the variable the list is the one wildcard. *)
Theorem origins_shape (env : environ) :
  origins env <> []
  /\ List.length (origins env)
     = S (count_occ N.eq_dec
            (getenv_default env (lit "CORS_ALLOW_ORIGINS") (lit "*")) comma)
  /\ Forall (fun o => ~ In comma o /\ strip o = o) (origins env)
  /\ join comma
          (split comma
                 (getenv_default env (lit "CORS_ALLOW_ORIGINS") (lit "*")))
     = getenv_default env (lit "CORS_ALLOW_ORIGINS") (lit "*")
  /\ (getenv env (lit "CORS_ALLOW_ORIGINS") = None -> origins env = [lit "*"]).
Proof.
  unfold origins.
  set (v := getenv_default env (lit "CORS_ALLOW_ORIGINS") (lit "*")).
  split; [|split; [|split; [|split]]].
  - pose proof (split_not_nil comma v) as N.
    destruct (split comma v); [contradiction | discriminate].
  - now rewrite length_map, split_length.
  - apply Forall_map. eapply Forall_impl; [|apply split_pieces].
    intros p Hp. split; [|apply strip_idempotent].
    intros Hin. apply Hp. exact (trims_in p (strip p) comma (strip_trims p) Hin).
  - apply join_split.
  - intros E. subst v. unfold getenv_default. rewrite E. reflexivity.
Qed.

(** X13. A list of entries without commas, written with commas between
    them and any whitespace around them, is read back entry by entry,
    stripped; entries that are already stripped are read back as they
    are. *)
Theorem origins_round_trip (env : environ) (entries : list str) :
  entries <> [] ->
  Forall (fun x => ~ In comma x) entries ->
  getenv env (lit "CORS_ALLOW_ORIGINS") = Some (join comma entries) ->
  origins env = List.map strip entries
  /\ (Forall (fun x => strip x = x) entries -> origins env = entries).
Proof.
  intros N F E.
  assert (O : origins env = List.map strip entries).
  { unfold origins, getenv_default. rewrite E.
    now rewrite (split_join comma entries F N). }
  split; [exact O|]. intros S. rewrite O.
  clear -S. induction S as [|x l Hx _ IH]; [reflexivity|].
  simpl. now rewrite Hx, IH.
Qed.

Section StartupProperties.

Variable Client : Type.
Variable AzureOpenAI : option str -> option str -> option str -> exn + Client.


End StartupProperties.

(** X15. PostHog is configured exactly when POSTHOG_API_KEY is set to a
    non-empty value; its host is then POSTHOG_HOST, or the US cloud when
    that is not set, and nothing is printed. Otherwise the warning is
    printed, once. *)
Theorem configure_posthog_key (env : environ) :
  (forall settings,
     fst (configure_posthog env) = Some settings
     <-> (getenv env (lit "POSTHOG_API_KEY") = Some (project_api_key settings)
          /\ project_api_key settings <> []
          /\ host settings
             = getenv_default env (lit "POSTHOG_HOST")
                              (lit "https://us.i.posthog.com")))
  /\ (fst (configure_posthog env) <> None -> snd (configure_posthog env) = [])
  /\ (fst (configure_posthog env) = None ->
      snd (configure_posthog env) = [posthog_warning]).
Proof.
  unfold configure_posthog.
  destruct (getenv env (lit "POSTHOG_API_KEY")) as [[|c key]|]; simpl.
  - split; [|split; [contradiction | reflexivity]].
    intros st. split; [discriminate|]. intros ([= <-] & N & _). contradiction.
  - split; [|split; [reflexivity | discriminate]].
    intros [k h]. simpl. split.
    + intros [= <- <-]. repeat split. discriminate.
    + intros ([= <-] & _ & ->). reflexivity.
  - split; [|split; [contradiction | reflexivity]].
    intros st. split; [discriminate|]. intros ([=] & _).
Qed.

(* ================================================================= *)
(** ** Every handling has one shape *)

Lemma count_cons (p : event -> bool) ev (t : list event) :
  count p (ev :: t) = ((if p ev then 1 else 0) + count p t)%nat.
Proof. unfold count. simpl. now destruct (p ev). Qed.

Lemma slept_app (a b : list event) : slept (a ++ b) = slept a + slept b.
Proof.
  induction a as [|ev a IH]; [reflexivity|].
  destruct ev; simpl; rewrite IH; lia.
Qed.

Lemma polled_app tid (a b : list event) :
  polled tid a -> polled tid b -> polled tid (a ++ b).
Proof. induction 1; simpl; [auto | intros; constructor; auto]. Qed.

(** In the iterations of the loop nothing but sleeping and fetching is
    done, a second of sleep for each fetch. *)
Lemma polled_counts tid (t : list event) :
  polled tid t ->
  count is_capture t = 0%nat /\ count is_messages_create t = 0%nat
  /\ count is_messages_list t = 0%nat /\ count is_threads_create t = 0%nat
  /\ count is_runs_create t = 0%nat
  /\ slept t = Z.of_nat (count is_runs_retrieve t).
Proof.
  induction 1 as [|rid t _ (C1 & C2 & C3 & C4 & C5 & C6)];
    [repeat split|].
  rewrite !count_cons, C1, C2, C3, C4, C5. repeat split.
  cbn [slept is_runs_retrieve]. rewrite C6. lia.
Qed.

Section Handling.

Context {W : Type} {client : AssistantClient W} {posthog : AnalyticsSink W}.
Variable ASSISTANT_ID : str.

Lemma poll_polled (fuel : nat) tid run (w : W) :
  match outcome_of (poll fuel tid run w) with
  | Ret r => polled tid (trace_of (poll fuel tid run w))
             /\ keeps_polling r = false
  | Pending => polled tid (trace_of (poll fuel tid run w))
  | Raise e =>
      exists t rid,
        polled tid t
        /\ trace_of (poll fuel tid run w)
           = t ++ [EvSleep 1; EvRunsRetrieve tid rid]
  end.
Proof.
  revert run w; induction fuel as [|fuel IH]; intros run w;
    destruct (keeps_polling run) eqn:K;
    try (rewrite (poll_done _ tid run w K); split; [constructor | exact K]).
  - rewrite (poll_out_of_fuel tid run w K). constructor.
  - rewrite (poll_step fuel tid run w K).
    destruct (runs_retrieve tid (Run_id run) w) as [[e|run'] w'].
    + exists [], (Run_id run). split; [constructor | reflexivity].
    + specialize (IH run' w').
      destruct (poll fuel tid run' w') as [[[r|e|] w''] t];
        unfold outcome_of, trace_of in *; simpl in *.
      * destruct IH as [P K']. split; [now constructor | exact K'].
      * destruct IH as (t0 & rid & P & ->).
        exists (EvSleep 1 :: EvRunsRetrieve tid (Run_id run) :: t0), rid.
        split; [now constructor | reflexivity].
      * now constructor.
Qed.

Lemma conclude_concluded request q tid run (w : W) :
  keeps_polling run = false ->
  concluded request q tid (outcome_of (conclude request q tid run w))
            (trace_of (conclude request q tid run w)).
Proof.
  intros K. destruct (str_eqb (Run_status run) (lit "completed")) eqn:E.
  - apply str_eqb_eq in E. rewrite (conclude_completed request q tid run w E).
    destruct (messages_list tid w) as [[e|data] w1];
      [|destruct (first_text data)]; constructor.
  - assert (S : Run_status run <> lit "completed").
    { intros S. rewrite S, str_eqb_refl in E. discriminate. }
    rewrite (conclude_failed request q tid run w S). unfold failure_outcome.
    destruct (client_host request) as [h|] eqn:Hh;
      [destruct (posthog_capture _ _ _ w) as [[e|u] w1]|];
      destruct (json_compliant tid) eqn:J;
      unfold outcome_of, trace_of; simpl;
      (apply concluded_failed || apply concluded_unrendered); auto;
      econstructor; eassumption.
Qed.

Lemma ask_after_thread fuel request q tid0 (w : W) tid w1 t1 :
  asks request q tid0 ->
  acquire_thread tid0 w = (Ret tid, w1, t1) ->
  exists t2,
    trace_of (ask ASSISTANT_ID fuel request w) = log_question q :: t1 ++ t2
    /\ after_thread request q ASSISTANT_ID tid
                    (outcome_of (ask ASSISTANT_ID fuel request w)) t2.
Proof.
  intros H A. rewrite (ask_accepted ASSISTANT_ID fuel request q tid0 w H).
  rewrite (until_terminal_acquired ASSISTANT_ID fuel q tid0 w tid w1 t1 A).
  destruct (messages_create tid (lit "user") q w1) as [[e|u] w2].
  { eexists. split; [reflexivity | constructor]. }
  destruct (runs_create tid ASSISTANT_ID w2) as [[e|run] w3].
  { eexists. split; [reflexivity | constructor]. }
  pose proof (poll_polled fuel tid run w3) as P.
  destruct (poll fuel tid run w3) as [[[r|e|] w4] t4];
    unfold outcome_of, trace_of in P; simpl in P.
  - destruct P as [P K].
    pose proof (conclude_concluded request q tid r w4 K) as C.
    destruct (conclude request q tid r w4) as [[o w5] t5].
    unfold outcome_of, trace_of in *; simpl in *.
    exists (EvMessagesCreate tid (lit "user") q
            :: EvRunsCreate tid ASSISTANT_ID :: t4 ++ t5).
    split; [now rewrite <- app_assoc | now constructor].
  - destruct P as (t & rid & P & ->).
    eexists. split; [reflexivity | now constructor].
  - eexists. split; [reflexivity | now constructor].
Qed.

(** A request whose body is not a JSON object leaves the handler with an
    exception before anything is done. *)
Lemma ask_bad_body fuel request (w : W) :
  (forall items, request_json request <> Some (PDict items)) ->
  ask ASSISTANT_ID fuel request w
  = (Raise match request_body request with
           | Json v => AttributeError (type_name v) (lit "get")
           | NotJSON => JSONDecodeError
           | NotText => UnicodeDecodeError
           end, w, []).
Proof.
  intros H. unfold ask. unfold bind at 1.
  unfold read_request, bind, lift, request_json in *.
  destruct (request_body request) as [| |v]; try reflexivity.
  destruct v; try reflexivity. exfalso. now apply (H items).
Qed.

Lemma ask_asked_or_not fuel request items (w : W) :
  request_json request = Some (PDict items) ->
  (exists q, asks request q
               match lookup (lit "thread_id") items with
               | Some v => v
               | None => PNone
               end)
  \/ (ask ASSISTANT_ID fuel request w = (Ret no_question, w, [])
      /\ (lookup (lit "question") items = None
          \/ exists s, lookup (lit "question") items = Some (PStr s)
                       /\ strip s = []))
  \/ (exists v, lookup (lit "question") items = Some v
                /\ (forall s, v <> PStr s)
                /\ ask ASSISTANT_ID fuel request w
                   = (Raise (AttributeError (type_name v) (lit "strip")),
                      w, [])).
Proof.
  intros Hj. destruct (lookup (lit "question") items) as [v|] eqn:Hq.
  - assert (N : (forall s, v <> PStr s) ->
                exists v', Some v = Some v' /\ (forall s, v' <> PStr s)
                  /\ ask ASSISTANT_ID fuel request w
                     = (Raise (AttributeError (type_name v') (lit "strip")),
                        w, [])).
    { intros Hv. exists v. split; [reflexivity|]. split; [exact Hv|].
      exact (ask_not_str ASSISTANT_ID fuel request items v w Hj Hq Hv). }
    destruct v as [| | | |s| |];
      try (right; right; apply N; discriminate).
    destruct (strip s) as [|c q] eqn:Hs.
    + right. left.
      assert (B : Some (PStr s) = None
                  \/ exists s', Some (PStr s) = Some (PStr s')
                                /\ strip s' = []) by (right; eauto).
      split; [|exact B].
      apply (ask_no_question ASSISTANT_ID fuel request items w Hj).
      right. eauto.
    + left. exists (c :: q), items, s. repeat split; auto. discriminate.
  - right. left. split; [|now left].
    exact (ask_no_question ASSISTANT_ID fuel request items w Hj (or_introl Hq)).
Qed.

Lemma ask_shape (fuel : nat) (request : Request) (w : W) :
  handled request ASSISTANT_ID
          (outcome_of (ask ASSISTANT_ID fuel request w))
          (trace_of (ask ASSISTANT_ID fuel request w)).
Proof.
  destruct (request_json request) as [[| | | | | |items]|] eqn:Hj;
    try (rewrite ask_bad_body by (rewrite Hj; discriminate); constructor).
  destruct (ask_asked_or_not fuel request items w Hj)
    as [(q & H)|[(E & _)|(v & _ & _ & E)]];
    [|rewrite E; constructor|rewrite E; constructor].
  set (tid0 := match lookup (lit "thread_id") items with
               | Some v => v
               | None => PNone
               end) in *.
  destruct (truthy tid0) eqn:T.
  - destruct (ask_after_thread fuel request q tid0 w tid0 w _ H
                (acquire_thread_reuse tid0 w T)) as (t2 & -> & A).
    now apply (on_supplied_thread request ASSISTANT_ID q tid0).
  - pose proof (acquire_thread_create tid0 w T) as A.
    destruct (threads_create w) as [[e|th] w1].
    + rewrite (ask_not_acquired ASSISTANT_ID fuel request q tid0 w e w1 _ H A).
      now apply (thread_raised request ASSISTANT_ID q tid0).
    + destruct (ask_after_thread fuel request q tid0 w _ w1 _ H A)
        as (t2 & -> & A').
      now apply (on_new_thread request ASSISTANT_ID q tid0).
Qed.


End Handling.

(* ================================================================= *)
(** ** What follows from the shape *)

Ltac handled_cases H :=
  inversion H; subst; clear H;
  try match goal with
      | A : after_thread _ _ _ _ _ _ |- _ => inversion A; subst; clear A
      end;
  try match goal with
      | C : concluded _ _ _ _ _ |- _ => inversion C; subst; clear C
      end;
  try match goal with
      | A : attempted _ _ _ _ _ |- _ => inversion A; subst; clear A
      end.

Ltac count_polled :=
  repeat match goal with
         | P : polled _ _ |- _ =>
             let C1 := fresh in let C2 := fresh in let C3 := fresh in
             let C4 := fresh in let C5 := fresh in let C6 := fresh in
             destruct (polled_counts _ _ P) as (C1 & C2 & C3 & C4 & C5 & C6);
             clear P
         end.

Lemma handled_once request assistant o (t : list event) :
  handled request assistant o t ->
  (count is_threads_create t <= 1)%nat /\ (count is_messages_create t <= 1)%nat
  /\ (count is_runs_create t <= 1)%nat /\ (count is_messages_list t <= 1)%nat
  /\ (count is_capture t <= 1)%nat.
Proof.
  intros H. handled_cases H; count_polled;
    rewrite ?count_cons, ?count_app, ?count_cons; simpl;
    repeat match goal with E : count _ _ = _ |- _ => rewrite E; clear E end;
    unfold count; simpl; lia.
Qed.

Lemma handled_slept request assistant o (t : list event) :
  handled request assistant o t ->
  slept t = Z.of_nat (count is_runs_retrieve t).
Proof.
  intros H. handled_cases H; count_polled;
    repeat (cbn [slept log_question log_created log_existing];
            rewrite ?count_cons, ?count_app, ?slept_app);
    unfold log_question, log_created, log_existing, log_reply, log_run_failed,
      log_capture_failed, capture_event;
    simpl; change (count is_runs_retrieve []) with 0%nat; lia.
Qed.

Lemma handled_capture request assistant o (t : list event) :
  handled request assistant o t ->
  match o with
  | Ret r =>
      count is_capture t
      = (if status_code r =? 500
         then match client_host request with
              | Some _ => 1%nat
              | None => 0%nat
              end
         else 0%nat)
      /\ count is_messages_list t
         = (if status_code r =? 200 then 1%nat else 0%nat)
  | Raise e => (forall m, e <> ValueError m) -> count is_capture t = 0%nat
  | Pending => count is_capture t = 0%nat /\ count is_messages_list t = 0%nat
  end.
Proof.
  intros H. handled_cases H; count_polled; cbv beta iota;
    try (intros N; try (now destruct (N not_json_compliant)));
    rewrite ?count_cons, ?count_app, ?count_cons; simpl;
    repeat match goal with E : count _ _ = _ |- _ => rewrite E; clear E end;
    repeat match goal with E : client_host _ = _ |- _ => rewrite E; clear E end;
    unfold count; simpl; try split; reflexivity.
Qed.

Lemma handled_ret request assistant r (t : list event) :
  handled request assistant (Ret r) t ->
  (r = no_question /\ t = [])
  \/ (exists tid answer, r = answer_response tid answer)
  \/ (exists tid run,
        r = failure_response tid (Run_status run)
        /\ Run_status run <> lit "completed" /\ keeps_polling run = false).
Proof.
  intros H. handled_cases H; eauto 10.
Qed.

Lemma handled_message request assistant o (t : list event) :
  handled request assistant o t ->
  filter is_messages_create t = []
  \/ exists q tid0 tid,
       asks request q tid0
       /\ filter is_messages_create t = [EvMessagesCreate tid (lit "user") q].
Proof.
  intros H. handled_cases H; try (now left); right;
    do 3 eexists; (split; [eassumption|]); count_polled;
    simpl; rewrite ?filter_app; simpl;
    repeat match goal with
           | E : count is_messages_create ?t = 0%nat |- _ =>
               unfold count in E; apply length_zero_iff_nil in E; rewrite E
           end; reflexivity.
Qed.

Section Consequences.

Context {W : Type} {client : AssistantClient W} {posthog : AnalyticsSink W}.
Variable ASSISTANT_ID : str.

Lemma ask_asked_trace fuel request q tid0 (w : W) :
  asks request q tid0 ->
  exists t, trace_of (ask ASSISTANT_ID fuel request w) = log_question q :: t.
Proof.
  intros H. destruct (acquire_thread tid0 w) as [[[tid|e|] w1] t1] eqn:A.
  - destruct (ask_flow ASSISTANT_ID fuel request q tid0 w tid w1 t1 H A)
      as (t2 & -> & _). eexists. reflexivity.
  - rewrite (ask_not_acquired ASSISTANT_ID fuel request q tid0 w e w1 t1 H A).
    eexists. reflexivity.
  - exfalso. exact (acquire_thread_not_pending tid0 w w1 t1 A).
Qed.

(** X2. For a body that is a JSON object, the 400 answer is given exactly
    when the question is missing or is a string of whitespace only (the
    empty string included): a question with one character that is not
    whitespace is never turned away with 400. *)
Theorem ask_400_iff_blank (fuel : nat) (request : Request) items (w : W) :
  request_json request = Some (PDict items) ->
  (exists r, outcome_of (ask ASSISTANT_ID fuel request w) = Ret r
             /\ status_code r = 400)
  <-> (lookup (lit "question") items = None
       \/ exists s, lookup (lit "question") items = Some (PStr s)
                    /\ forallb is_space s = true).
Proof.
  intros Hj. split.
  - intros (r & O & S).
    destruct (ask_asked_or_not ASSISTANT_ID fuel request items w Hj)
      as [(q & H)|[(_ & [B|(s & Hq & Hs)])|(v & _ & _ & E)]].
    + exfalso.
      pose proof (ask_shape ASSISTANT_ID fuel request w) as Sh.
      destruct (ask_asked_trace fuel request q _ w H) as (t & E).
      rewrite O, E in Sh.
      destruct (handled_ret _ _ _ _ Sh)
        as [[_ [=]]|[(tid & a & ->)|(tid & run & -> & _)]];
        cbv in S; discriminate S.
    + now left.
    + right. exists s. split; [exact Hq | now apply strip_nil_blank].
    + rewrite E in O. discriminate.
  - intros B. exists no_question. split; [|reflexivity].
    rewrite (ask_no_question ASSISTANT_ID fuel request items w Hj);
      [reflexivity|].
    destruct B as [B|(s & Hq & Hs)]; [now left|].
    right. exists s. split; [exact Hq | now apply strip_blank].
Qed.


(** X4. A response of [ask] is one of three: 400 with the error
    "No question provided." and nothing called; 200 with [answer] and
    [thread_id]; 500 with the error "Run failed with status: <status>" and
    [thread_id], for a status that is neither completed nor one the loop
    polls on. So a body has an [error] field exactly when the status is
    not 200. *)
Theorem ask_response_forms (fuel : nat) (request : Request) (w : W) r :
  outcome_of (ask ASSISTANT_ID fuel request w) = Ret r ->
  ((r = JSONResponse [(lit "error", PStr (lit "No question provided."))] 400
    /\ trace_of (ask ASSISTANT_ID fuel request w) = [])
   \/ (exists tid answer,
         r = mkResponse 200 (PDict [(lit "answer", PStr answer);
                                    (lit "thread_id", tid)]))
   \/ (exists tid status,
         r = JSONResponse
               [(lit "error", PStr (lit "Run failed with status: " ++ status));
                (lit "thread_id", tid)] 500
         /\ status <> lit "completed"
         /\ str_in status polling_statuses = false))
  /\ (body_field (lit "error") r = None <-> status_code r = 200).
Proof.
  intros O. pose proof (ask_shape ASSISTANT_ID fuel request w) as Sh.
  rewrite O in Sh.
  destruct (handled_ret _ _ _ _ Sh)
    as [[-> E]|[(tid & a & ->)|(tid & run & -> & S & K)]].
  - split; [now left|]. split; intro X; [cbv in X; discriminate X | simpl in X; lia].
  - split; [right; left; exists tid, a; reflexivity|]. split; reflexivity.
  - split; [right; right; exists tid, (Run_status run); auto|].
    split; intro X; [cbv in X; discriminate X | simpl in X; lia].
Qed.

(** X5. At most one message is appended in a handling; it has the role
    user and its content is the question of the body without the
    whitespace before and after it, which is not empty and neither begins
    nor ends with whitespace. *)
Theorem ask_appends_stripped_question (fuel : nat) (request : Request)
    (w : W) :
  (count is_messages_create (trace_of (ask ASSISTANT_ID fuel request w))
   <= 1)%nat
  /\ forall ev,
       In ev (trace_of (ask ASSISTANT_ID fuel request w)) ->
       is_messages_create ev = true ->
       exists tid items s,
         request_json request = Some (PDict items)
         /\ lookup (lit "question") items = Some (PStr s)
         /\ ev = EvMessagesCreate tid (lit "user") (strip s)
         /\ strip s <> []
         /\ trims s (strip s).
Proof.
  pose proof (ask_shape ASSISTANT_ID fuel request w) as Sh. split.
  - exact (proj1 (proj2 (handled_once _ _ _ _ Sh))).
  - intros ev Hin Hmc.
    assert (F : In ev (filter is_messages_create
                         (trace_of (ask ASSISTANT_ID fuel request w))))
      by (apply filter_In; auto).
    destruct (handled_message _ _ _ _ Sh) as [E|(q & tid0 & tid & H & E)];
      rewrite E in F; [destruct F|].
    destruct F as [<-|[]].
    destruct H as (items & s & Hj & Hq & <- & Hne & _).
    exists tid, items, s. repeat split; auto. apply strip_trims.
Qed.

(** X6. The handler sleeps one second before each fetch of the run and at
    no other time: the seconds slept in a handling are the number of its
    fetches. *)
Theorem ask_sleeps_once_per_fetch (fuel : nat) (request : Request) (w : W) :
  slept (trace_of (ask ASSISTANT_ID fuel request w))
  = Z.of_nat (count is_runs_retrieve
                (trace_of (ask ASSISTANT_ID fuel request w))).
Proof. exact (handled_slept _ _ _ _ (ask_shape ASSISTANT_ID fuel request w)). Qed.


(** X8. Nothing is tried twice: in one handling a thread is created at
    most once, a message appended at most once, a run created at most
    once, the messages listed at most once, a capture made at most once. *)
Theorem ask_no_retry (fuel : nat) (request : Request) (w : W) :
  (count is_threads_create (trace_of (ask ASSISTANT_ID fuel request w)) <= 1)%nat
  /\ (count is_messages_create (trace_of (ask ASSISTANT_ID fuel request w))
      <= 1)%nat
  /\ (count is_runs_create (trace_of (ask ASSISTANT_ID fuel request w)) <= 1)%nat
  /\ (count is_messages_list (trace_of (ask ASSISTANT_ID fuel request w))
      <= 1)%nat
  /\ (count is_capture (trace_of (ask ASSISTANT_ID fuel request w)) <= 1)%nat.
Proof. exact (handled_once _ _ _ _ (ask_shape ASSISTANT_ID fuel request w)). Qed.

(** X9. The thread identifier of a response continues the conversation.
    When the upstream gives its threads non-empty identifiers, the
    [thread_id] of any response, 200 or 500, is truthy and names the thread
    the question was appended to; a later request that carries it creates
    no thread, appends its question to that same thread, makes every call
    on it and answers with it again. *)
Theorem ask_thread_round_trip (fuel : nat) (request : Request) (w : W) r tid :
  (forall th w1, threads_create w = (inr th, w1) -> Thread_id th <> []) ->
  outcome_of (ask ASSISTANT_ID fuel request w) = Ret r ->
  body_field (lit "thread_id") r = Some tid ->
  truthy tid = true
  /\ (exists q, In (EvMessagesCreate tid (lit "user") q)
                   (trace_of (ask ASSISTANT_ID fuel request w)))
  /\ forall fuel' request' q' (w' : W),
       asks request' q' tid ->
       count is_threads_create (trace_of (ask ASSISTANT_ID fuel' request' w'))
       = 0%nat
       /\ In (EvMessagesCreate tid (lit "user") q')
             (trace_of (ask ASSISTANT_ID fuel' request' w'))
       /\ on_thread tid (trace_of (ask ASSISTANT_ID fuel' request' w'))
       /\ (forall r', outcome_of (ask ASSISTANT_ID fuel' request' w') = Ret r' ->
             body_field (lit "thread_id") r' = Some tid).
Proof.
  intros Hid O B.
  assert (T : truthy tid = true
              /\ exists q, In (EvMessagesCreate tid (lit "user") q)
                              (trace_of (ask ASSISTANT_ID fuel request w))).
  { destruct (request_json request) as [[| | | | | |items]|] eqn:Hj;
      try (rewrite ask_bad_body in O by (rewrite Hj; discriminate);
           discriminate).
    destruct (ask_asked_or_not ASSISTANT_ID fuel request items w Hj)
      as [(q & H)|[(E & _)|(v & _ & _ & E)]];
      [|rewrite E in O; injection O as <-; discriminate
       |rewrite E in O; discriminate].
    set (tid0 := match lookup (lit "thread_id") items with
                 | Some v => v
                 | None => PNone
                 end) in *.
    destruct (truthy tid0) eqn:T0.
    - destruct (ask_on_supplied_thread ASSISTANT_ID fuel request q tid0 w H T0)
        as (_ & _ & I & _ & R).
      rewrite (R r O) in B. injection B as <-. split; [exact T0 | eauto].
    - destruct (ask_on_new_thread ASSISTANT_ID fuel request q tid0 w H T0)
        as (_ & _ & N).
      destruct (threads_create w) as [[e|th] w1] eqn:TC.
      + rewrite (ask_not_acquired ASSISTANT_ID fuel request q tid0 w e w1
                   [EvThreadsCreate] H) in O; [discriminate|].
        rewrite (acquire_thread_create tid0 w T0), TC. reflexivity.
      + destruct (N th w1 eq_refl) as (_ & I & R).
        rewrite (R r O) in B. injection B as <-. split; [|eauto].
        specialize (Hid th w1 eq_refl).
        destruct (Thread_id th); [contradiction | reflexivity]. }
  destruct T as (T & I). split; [exact T|]. split; [exact I|].
  intros fuel' request' q' w' H'.
  destruct (ask_on_supplied_thread ASSISTANT_ID fuel' request' q' tid w' H' T)
    as (C & On & I' & _ & R).
  auto.
Qed.

(** X10. When the upstream answers each fetch with the run that was asked
    for, every fetch of the loop asks for the run that was created: the
    loop follows one run. *)
Theorem poll_keeps_run_id (fuel : nat) tid run (w : W) :
  (forall n r w', (n <= fuel)%nat -> response n tid run w = Some (r, w') ->
                  Run_id r = Run_id run) ->
  Forall (fun ev => ev = EvSleep 1 \/ ev = EvRunsRetrieve tid (Run_id run))
         (trace_of (poll fuel tid run w)).
Proof.
  revert run w; induction fuel as [|fuel IH]; intros run w H;
    destruct (keeps_polling run) eqn:K;
    try (rewrite (poll_done _ tid run w K); constructor).
  - rewrite (poll_out_of_fuel tid run w K). constructor.
  - rewrite (poll_step fuel tid run w K).
    destruct (runs_retrieve tid (Run_id run) w) as [[e|run'] w'] eqn:R.
    + constructor; [now left|]. constructor; [now right | constructor].
    + assert (E : Run_id run' = Run_id run).
      { apply (H 1%nat run' w'); [lia|]. simpl. now rewrite R. }
      assert (H' : forall n r w'', (n <= fuel)%nat ->
                     response n tid run' w' = Some (r, w'') ->
                     Run_id r = Run_id run').
      { intros n r w'' Hle Hn. rewrite E. apply (H (S n) r w''); [lia|].
        simpl. now rewrite R. }
      specialize (IH run' w' H'). rewrite E in IH.
      destruct (poll fuel tid run' w') as [[o w''] t].
      constructor; [now left|]. constructor; [now right | exact IH].
Qed.

(** X11. When the run is completed but the answer cannot be read, the
    exception leaves the handler right after [messages.list], with no
    response and no capture: [IndexError] exactly when the list is empty or
    its first message has no content, [AttributeError] when the first
    content block of the first message is not text. *)
Theorem ask_answer_unreadable (fuel : nat) (request : Request) q tid0 (w : W)
    tid run w1 t1 data w2 e :
  asks request q tid0 ->
  until_terminal ASSISTANT_ID fuel q tid0 w = (Ret (tid, run), w1, t1) ->
  Run_status run = lit "completed" ->
  messages_list tid w1 = (inr data, w2) ->
  first_text data = inl e ->
  ask ASSISTANT_ID fuel request w = (Raise e, w2, t1 ++ [EvMessagesList tid])
  /\ (e = IndexError
      <-> data = [] \/ exists m rest, data = m :: rest /\ Message_content m = [])
  /\ (e <> IndexError ->
      exists m rest b bs name,
        data = m :: rest /\ Message_content m = b :: bs
        /\ (forall v, b <> TextContentBlock v)
        /\ e = AttributeError name (lit "text")).
Proof.
  intros H U S L F. split; [|split].
  - rewrite (ask_accepted ASSISTANT_ID fuel request q tid0 w H), U.
    rewrite (conclude_completed request q tid run w1 S), L, F. reflexivity.
  - destruct data as [|m rest]; simpl in F.
    + injection F as <-. split; auto.
    + destruct (Message_content m) as [|[v|f|u] bs] eqn:C;
        try discriminate; injection F as <-.
      * split; [eauto|reflexivity].
      * split; [discriminate|]. intros [[=]|(m' & rest' & [= <- <-] & C')].
        rewrite C in C'. discriminate.
      * split; [discriminate|]. intros [[=]|(m' & rest' & [= <- <-] & C')].
        rewrite C in C'. discriminate.
  - intros Ne. destruct data as [|m rest]; simpl in F.
    + injection F as <-. contradiction.
    + destruct (Message_content m) as [|[v|f|u] bs] eqn:C;
        try discriminate; injection F as <-; try contradiction.
      * exists m, rest, (ImageFileContentBlock f), bs, (lit "ImageFileContentBlock").
        repeat split; auto. discriminate.
      * exists m, rest, (ImageURLContentBlock u), bs, (lit "ImageURLContentBlock").
        repeat split; auto. discriminate.
Qed.

End Consequences.

(* ================================================================= *)
(** ** The further properties on the test double *)

Lemma origins_round_trip_witness :
  [lit " https://a.example "; lit "https://b.example"] <> []
  /\ origins [(lit "CORS_ALLOW_ORIGINS",
               lit " https://a.example ,https://b.example")]
     = [lit "https://a.example"; lit "https://b.example"].
Proof.
  split; [discriminate|].
  assert (F : Forall (fun x => ~ In comma x)
                     [lit " https://a.example "; lit "https://b.example"]).
  { repeat constructor; intros H; vm_compute in H;
      repeat (destruct H as [H|H]; [discriminate H|]); exact H. }
  exact (proj1 (origins_round_trip
                  [(lit "CORS_ALLOW_ORIGINS",
                    lit " https://a.example ,https://b.example")]
                  [lit " https://a.example "; lit "https://b.example"]
                  ltac:(discriminate) F eq_refl)).
Defined.

Lemma ask_400_iff_blank_witness :
  request_json blank = Some (PDict [(lit "question", PStr (lit "   "))])
  /\ exists r, outcome_of (ask (lit "asst_1") 3 blank happy) = Ret r
               /\ status_code r = 400.
Proof.
  split; [reflexivity|].
  apply (proj2 (ask_400_iff_blank (lit "asst_1") 3 blank
                  [(lit "question", PStr (lit "   "))] happy eq_refl)).
  right. exists (lit "   "). split; reflexivity.
Defined.



Lemma ask_response_forms_witness :
  outcome_of (ask (lit "asst_1") 5 hello run_fails)
  = Ret (JSONResponse
           [(lit "error", PStr (lit "Run failed with status: failed"));
            (lit "thread_id", PStr (lit "thread_new"))] 500)
  /\ (body_field (lit "error")
        (JSONResponse
           [(lit "error", PStr (lit "Run failed with status: failed"));
            (lit "thread_id", PStr (lit "thread_new"))] 500) = None
      <-> status_code
            (JSONResponse
               [(lit "error", PStr (lit "Run failed with status: failed"));
                (lit "thread_id", PStr (lit "thread_new"))] 500) = 200).
Proof.
  assert (O : outcome_of (ask (lit "asst_1") 5 hello run_fails)
              = Ret (JSONResponse
                       [(lit "error",
                         PStr (lit "Run failed with status: failed"));
                        (lit "thread_id", PStr (lit "thread_new"))] 500))
    by (vm_compute; reflexivity).
  split; [exact O|].
  exact (proj2 (ask_response_forms (lit "asst_1") 5 hello run_fails _ O)).
Defined.

Lemma ask_thread_round_trip_witness :
  outcome_of (ask (lit "asst_1") 5 hello happy)
  = Ret (mkResponse 200
           (PDict [(lit "answer", PStr (lit "Hello!"));
                   (lit "thread_id", PStr (lit "thread_new"))]))
  /\ truthy (PStr (lit "thread_new")) = true
  /\ count is_threads_create
       (trace_of (ask (lit "asst_1") 5
                      (json_request
                         [(lit "question", PStr (lit "and then?"));
                          (lit "thread_id", PStr (lit "thread_new"))])
                      happy)) = 0%nat.
Proof.
  assert (O : outcome_of (ask (lit "asst_1") 5 hello happy)
              = Ret (mkResponse 200
                       (PDict [(lit "answer", PStr (lit "Hello!"));
                               (lit "thread_id", PStr (lit "thread_new"))])))
    by (vm_compute; reflexivity).
  assert (I : forall th w1, threads_create happy = (inr th, w1) ->
                            Thread_id th <> []).
  { intros th w1 E. injection E as <- _. discriminate. }
  assert (A : asks (json_request
                      [(lit "question", PStr (lit "and then?"));
                       (lit "thread_id", PStr (lit "thread_new"))])
                   (lit "and then?") (PStr (lit "thread_new"))).
  { exists [(lit "question", PStr (lit "and then?"));
            (lit "thread_id", PStr (lit "thread_new"))], (lit "and then?").
    repeat split; try reflexivity. discriminate. }
  destruct (ask_thread_round_trip (lit "asst_1") 5 hello happy _
              (PStr (lit "thread_new")) I O eq_refl) as (T & _ & Next).
  split; [exact O|]. split; [exact T|].
  exact (proj1 (Next 5%nat _ (lit "and then?") happy A)).
Defined.

Lemma poll_keeps_run_id_witness :
  Forall (fun ev => ev = EvSleep 1
                    \/ ev = EvRunsRetrieve (PStr (lit "thread_new"))
                                           (lit "run_1"))
         (trace_of (poll 3 (PStr (lit "thread_new")) queued_run happy)).
Proof.
  apply (poll_keeps_run_id 3 (PStr (lit "thread_new")) queued_run happy).
  intros [|[|[|[|n]]]] r w' Hn; simpl;
    try (intros [= <- _]; reflexivity).
  exfalso. lia.
Defined.

Lemma ask_answer_unreadable_witness :
  asks hello (lit "hi") PNone
  /\ first_text [] = inl IndexError
  /\ outcome_of (ask (lit "asst_1") 5 hello nothing_listed) = Raise IndexError.
Proof.
  split; [exact asks_hello|]. split; [reflexivity|].
  pose (t1 := trace_of (until_terminal (lit "asst_1") 5 (lit "hi") PNone
                                       nothing_listed)).
  assert (U : until_terminal (lit "asst_1") 5 (lit "hi") PNone nothing_listed
              = (Ret (PStr (lit "thread_new"), completed_run),
                 nothing_listed, t1))
    by (vm_compute; reflexivity).
  rewrite (proj1 (ask_answer_unreadable (lit "asst_1") 5 hello (lit "hi") PNone
                    nothing_listed (PStr (lit "thread_new")) completed_run
                    nothing_listed t1 [] nothing_listed IndexError
                    asks_hello U eq_refl eq_refl eq_refl)).
  reflexivity.
Defined.
